(** * node-statsd: the UDP client of [lib/statsd.js]

    A shallow embedding of [Client.prototype.send], [Client.prototype.sendAll]
    (with its inner closure [onSend]) and the typed operations built on them,
    followed by the properties of the wire line, of sampling, of the
    positional-argument shifting and of the fan-out callback. The constructor
    and the middleware of [Client.prototype.measureRoute] are embedded after
    them, with their own properties.

    Conventions.
    - A JavaScript number is a binary64 float ([PrimFloat.float]).
    - A JavaScript string is modelled by its UTF-8 bytes ([string]), so that
      [new Buffer(message)] has the bytes of [message] and [buf.length] is
      [String.length message].
    - A byte count is an integer ([Z]): the counts a transport reports are
      integers far below 2^53, where [sentBytes += bytes] adds exactly.
    - The operations of the host language that are not part of the repository
      (printing a number, reading a string as a number, the source text of a
      function) are the fields of the class [Runtime].
    - [Math.random], the socket and the calls made to the functions supplied by
      the caller are effects: they live in the record [world], which every
      operation takes and returns. *)

From Stdlib Require Import ZArith Floats DecimalString Permutation Lia.
From stdpp Require Import base list strings.

Set Warnings "-register-all".

Local Open Scope string_scope.
Local Open Scope list_scope.

(** ** JavaScript values *)

(** The values the client can be handed: the primitives, arrays and functions.
    A function is known by an identity; calling it is an entry of the trace. *)
Inductive jsval : Type :=
| VUndefined
| VNull
| VBool (b : bool)
| VNum (n : float)
| VStr (s : string)
| VArr (items : list jsval)
| VFun (f : nat).

(** The error object a transport reports; it is always truthy. *)
Inductive error : Type :=
| Error (message : string).

(** What the host language supplies. *)
Class Runtime : Type := {
  (** [Number::toString] *)
  number_to_string : float -> string;
  (** [StringToNumber] *)
  string_to_number : string -> float;
  (** [Function.prototype.toString] *)
  function_to_string : nat -> string
}.

(** [ToBoolean]: what [if(v)], [v && ...], [v || ...] and [!v] test. *)
Definition truthy (v : jsval) : bool :=
  match v with
  | VUndefined | VNull => false
  | VBool b => b
  | VNum n => negb (PrimFloat.eqb n 0 || PrimFloat.is_nan n)
  | VStr s => negb (String.eqb s "")
  | VArr _ | VFun _ => true
  end.

(** [typeof v === 'number'], [typeof v === 'function'], [Array.isArray(v)]. *)
Definition is_number (v : jsval) : bool :=
  match v with VNum _ => true | _ => false end.

Definition is_function (v : jsval) : bool :=
  match v with VFun _ => true | _ => false end.

Definition is_array (v : jsval) : bool :=
  match v with VArr _ => true | _ => false end.

(** [Array.prototype.join]: the separator between the elements' strings. *)
Fixpoint join (sep : string) (parts : list string) : string :=
  match parts with
  | [] => ""
  | [p] => p
  | p :: rest => p +:+ sep +:+ join sep rest
  end.

Section Conversions.
Context {rt : Runtime}.

(** [ToString], as string concatenation ['' + v] applies it. An array prints
    as its elements joined by commas, where [undefined] and [null] elements
    print as the empty string. *)
Fixpoint to_string (v : jsval) : string :=
  match v with
  | VUndefined => "undefined"
  | VNull => "null"
  | VBool true => "true"
  | VBool false => "false"
  | VNum n => number_to_string n
  | VStr s => s
  | VArr items =>
      join "," (List.map (fun item =>
                            match item with
                            | VUndefined | VNull => ""
                            | _ => to_string item
                            end) items)
  | VFun f => function_to_string f
  end.

(** The string of one array element inside [join]. *)
Definition element_string (item : jsval) : string :=
  match item with
  | VUndefined | VNull => ""
  | _ => to_string item
  end.

(** [tags.join(',')] on an array with the elements [items]. *)
Definition array_join (sep : string) (items : list jsval) : string :=
  join sep (List.map element_string items).

(** [ToNumber], as unary minus and [<] against a number apply it. *)
Definition to_number (v : jsval) : float :=
  match v with
  | VUndefined => PrimFloat.nan
  | VNull => 0%float
  | VBool true => 1%float
  | VBool false => 0%float
  | VNum n => n
  | VStr s => string_to_number s
  | VArr _ => string_to_number (to_string v)
  | VFun _ => string_to_number (to_string v)
  end.

(** [a < b] where at least one side is a number. *)
Definition js_lt (a b : jsval) : bool :=
  PrimFloat.ltb (to_number a) (to_number b).

(** Unary minus. *)
Definition js_neg (v : jsval) : jsval :=
  VNum (PrimFloat.opp (to_number v)).

(** [a || b] *)
Definition js_or (a b : jsval) : jsval :=
  if truthy a then a else b.
End Conversions.

(** ** The client and the world it acts on *)

(** The fields of [this] that the send path reads, with the types the
    constructor's documentation gives them: [prefix] and [suffix] are strings,
    so that every [+] of the line is a concatenation, and [mock] is a boolean,
    tested by [!this.mock]. *)
Record Client : Type := {
  host : string;
  port : jsval;
  prefix : string;
  suffix : string;
  mock : bool
}.

(** The callback a send is given: a value supplied by the caller, or the
    closure [onSend] of the [sendAll] call whose variables are stored at the
    given index of the world. *)
Inductive handler : Type :=
| Direct (callback : jsval)
| OnSend (batch : nat).

(** The variables one [sendAll] call shares among its [onSend] closures. *)
Record batch : Type := {
  completed : nat;
  calledback : bool;
  sentBytes : Z;
  callback : jsval;
  stat : list jsval
}.

(** One call [socket.send(buf, offset, length, port, host, callback)]. *)
Record datagram : Type := {
  buf : string;
  offset : nat;
  len : nat;
  dport : jsval;
  dhost : string;
  dcallback : handler
}.

(** One call of a function of the caller: [f(error)] has no second argument,
    [f(null, bytes)] has no error. *)
Record invocation : Type := {
  target : nat;
  arg_error : option error;
  arg_bytes : option Z
}.

Record world : Type := {
  (** the results of [Math.random()], by call number *)
  entropy : nat -> float;
  (** how many times [Math.random()] has been called *)
  draws : nat;
  (** the datagrams handed to [socket.send], oldest first *)
  socket : list datagram;
  (** the variables of the [sendAll] calls made so far *)
  batches : list batch;
  (** the calls made to the caller's functions, oldest first *)
  trace : list invocation
}.

Definition random (w : world) : float * world :=
  (entropy w (draws w),
   {| entropy := entropy w; draws := S (draws w); socket := socket w;
      batches := batches w; trace := trace w |}).

Definition socket_send (d : datagram) (w : world) : world :=
  {| entropy := entropy w; draws := draws w; socket := socket w ++ [d];
     batches := batches w; trace := trace w |}.

Definition call (f : nat) (e : option error) (n : option Z) (w : world) : world :=
  {| entropy := entropy w; draws := draws w; socket := socket w;
     batches := batches w;
     trace := trace w ++ [{| target := f; arg_error := e; arg_bytes := n |}] |}.

Definition set_batch (k : nat) (b : batch) (w : world) : world :=
  {| entropy := entropy w; draws := draws w; socket := socket w;
     batches := <[k := b]> (batches w); trace := trace w |}.

Definition new_batch (b : batch) (w : world) : nat * world :=
  (length (batches w),
   {| entropy := entropy w; draws := draws w; socket := socket w;
      batches := batches w ++ [b]; trace := trace w |}).

(** ** [onSend] *)

(** [callback(error)] and [callback(null, bytes)] on a value of the caller. *)
Definition call_value (v : jsval) (e : option error) (n : option Z) (w : world) : world :=
  match v with
  | VFun f => call f e n w
  | _ => w
  end.

(** [onSend(error, bytes)] of the [sendAll] call stored at [k]. An index that
    names no stored call cannot be reached from [sendAll]; nothing happens
    there. *)
Definition onSend (k : nat) (err : option error) (bytes : Z) (w : world) : world :=
  match batches w !! k with
  | None => w
  | Some b =>
      (* completed += 1 *)
      let b1 := {| completed := completed b + 1; calledback := calledback b;
                   sentBytes := sentBytes b; callback := callback b;
                   stat := stat b |} in
      if calledback b1 || negb (is_function (callback b1)) then set_batch k b1 w
      else
        match err with
        | Some e =>
            (* calledback = true; return callback(error) *)
            let b2 := {| completed := completed b1; calledback := true;
                         sentBytes := sentBytes b1; callback := callback b1;
                         stat := stat b1 |} in
            call_value (callback b2) (Some e) None (set_batch k b2 w)
        | None =>
            (* sentBytes += bytes *)
            let b2 := {| completed := completed b1; calledback := calledback b1;
                         sentBytes := (sentBytes b1 + bytes)%Z;
                         callback := callback b1; stat := stat b1 |} in
            if Nat.eqb (completed b2) (length (stat b2))
            then call_value (callback b2) None (Some (sentBytes b2)) (set_batch k b2 w)
            else set_batch k b2 w
        end
  end.

(** Calling a handler with [(error, bytes)]: the transport does it when a
    datagram has been dealt with, and a mock client does it itself. A value of
    the caller that is not a function is never called. *)
Definition invoke (h : handler) (err : option error) (bytes : Z) (w : world) : world :=
  match h with
  | OnSend k => onSend k err bytes w
  | Direct v =>
      match err with
      | Some e => call_value v (Some e) None w
      | None => call_value v None (Some bytes) w
      end
  end.

(** [typeof callback === 'function'] for a handler. *)
Definition handler_is_function (h : handler) : bool :=
  match h with
  | OnSend _ => true
  | Direct v => is_function v
  end.

(** ** [Client.prototype.send] and [Client.prototype.sendAll] *)

Section Operations.
Context {rt : Runtime}.

(** [prefix + stat + suffix + ':' + value + '|' + type] *)
Definition base_line (c : Client) (stat value type : jsval) : string :=
  prefix c +:+ to_string stat +:+ suffix c +:+ ":" +:+ to_string value +:+ "|"
    +:+ to_string type.

(** [if(tags && Array.isArray(tags)) message += '|#' + tags.join(',')] *)
Definition with_tags (message : string) (tags : jsval) : string :=
  if truthy tags && is_array tags then
    match tags with
    | VArr items => message +:+ "|#" +:+ array_join "," items
    | _ => message
    end
  else message.

Definition send (c : Client) (stat value type sampleRate tags : jsval)
    (cb : handler) (w : world) : world :=
  let message := base_line c stat value type in
  (* the sampling block; [None] is its early [return] *)
  let '(kept, w) :=
    if truthy sampleRate && js_lt sampleRate (VNum 1) then
      let '(r, w) := random w in
      if js_lt (VNum r) sampleRate
      then (Some (message +:+ "|@" +:+ to_string sampleRate), w)
      else (None, w)
    else (Some message, w) in
  match kept with
  | None => w
  | Some message =>
      let message := with_tags message tags in
      if negb (mock c) then
        socket_send {| buf := message; offset := 0;
                       len := String.length message;
                       dport := port c; dhost := host c;
                       dcallback := cb |} w
      else if handler_is_function cb then invoke cb None 0 w
      else w
  end.

(** The two shifts at the head of [sendAll]: the values of [sampleRate],
    [tags] and [callback] after them. *)
Definition shift_arguments (sampleRate tags callback : jsval)
    : jsval * jsval * jsval :=
  let '(sampleRate, tags, callback) :=
    if truthy sampleRate && negb (is_number sampleRate)
    then (VUndefined, sampleRate, tags)
    else (sampleRate, tags, callback) in
  if truthy tags && negb (is_array tags)
  then (sampleRate, VUndefined, tags)
  else (sampleRate, tags, callback).

(** [stat.forEach(function(item){ self.send(item, ..., onSend); })] *)
Definition send_each (c : Client) (k : nat) (value type sampleRate tags : jsval)
    (items : list jsval) (w : world) : world :=
  fold_left (fun w item => send c item value type sampleRate tags (OnSend k) w)
    items w.

(** The variables [completed], [calledback] and [sentBytes] of a call are
    stored, with [callback] and [stat], when the call reaches the array
    branch, the only place that hands out [onSend]. *)
Definition sendAll (c : Client) (stat value type sampleRate tags callback : jsval)
    (w : world) : world :=
  let '(sampleRate, tags, callback) := shift_arguments sampleRate tags callback in
  match stat with
  | VArr items =>
      let '(k, w) := new_batch {| completed := 0; calledback := false;
                                  sentBytes := 0; callback := callback;
                                  stat := items |} w in
      send_each c k value type sampleRate tags items w
  | _ => send c stat value type sampleRate tags (Direct callback) w
  end.

(** *** The typed operations *)

Definition timing (c : Client) (stat time sampleRate tags callback : jsval) :=
  sendAll c stat time (VStr "ms") sampleRate tags callback.

Definition increment (c : Client) (stat value sampleRate tags callback : jsval) :=
  sendAll c stat (js_or value (VNum 1)) (VStr "c") sampleRate tags callback.

Definition decrement (c : Client) (stat value sampleRate tags callback : jsval) :=
  sendAll c stat (js_or (js_neg value) (VNum (-1))) (VStr "c") sampleRate tags
    callback.

Definition histogram (c : Client) (stat value sampleRate tags callback : jsval) :=
  sendAll c stat value (VStr "h") sampleRate tags callback.

Definition gauge (c : Client) (stat value sampleRate tags callback : jsval) :=
  sendAll c stat value (VStr "g") sampleRate tags callback.

Definition set (c : Client) (stat value sampleRate tags callback : jsval) :=
  sendAll c stat value (VStr "s") sampleRate tags callback.

Definition unique := set.
End Operations.

(** ** The transport *)

(** What becomes of a datagram: the transport reports the bytes it sent, or an
    error. *)
Inductive outcome : Type :=
| Sent (bytes : Z)
| Failed (e : error).

(** The transport calls the callback of a datagram: [callback(null, bytes)] or
    [callback(error)]. In the second call [bytes] is [undefined]; [onSend]
    returns before it reads it, and 0 stands for it here. *)
Definition complete (d : datagram) (o : outcome) (w : world) : world :=
  match o with
  | Sent n => invoke (dcallback d) None n w
  | Failed e => invoke (dcallback d) (Some e) 0 w
  end.

(** Completions arriving one after the other, first of the list first. *)
Definition deliver (events : list (datagram * outcome)) (w : world) : world :=
  fold_left (fun w ev => complete (fst ev) (snd ev) w) events w.

(** * The constructor and the route middleware *)

(** ** [Client] as a constructor *)

(** An options object: the properties the constructor reads, [undefined] for
    the ones it does not have. *)
Record options : Type := {
  opt_host : jsval;
  opt_port : jsval;
  opt_prefix : jsval;
  opt_suffix : jsval;
  opt_globalize : jsval;
  opt_cacheDns : jsval;
  opt_mock : jsval
}.

(** The first argument of the constructor: an options object or a value. *)
Inductive first_argument : Type :=
| Opts (o : options)
| Val (v : jsval).

(** The arguments of a call [new Client(...)]: none, or a first argument and
    the values after it. *)
Inductive arguments : Type :=
| NoArgs
| Args (first : first_argument) (rest : list jsval).

(** What the constructor leaves in [this]. The host is what was passed as
    such: a value, or the options object when it came with other arguments. *)
Record instance : Type := {
  this_host : first_argument;
  this_port : jsval;
  this_prefix : jsval;
  this_suffix : jsval;
  this_mock : jsval
}.

(** The instance and the two other things the constructor may do: start
    [dns.lookup] on a name, and store the instance in [global.statsd]. *)
Record construction : Type := {
  this : instance;
  lookup : option first_argument;
  globalized : bool
}.

Definition truthy_first (a : first_argument) : bool :=
  match a with
  | Opts _ => true
  | Val v => truthy v
  end.

(** [typeof(host) === 'string'] *)
Definition is_string_first (a : first_argument) : bool :=
  match a with
  | Val (VStr _) => true
  | _ => false
  end.

(** [v === true] *)
Definition is_true (v : jsval) : bool :=
  match v with
  | VBool true => true
  | _ => false
  end.

(** The local [options] of the constructor, property by property. Its host
    alone can be an object. *)
Record settings : Type := {
  set_host : first_argument;
  set_port : jsval;
  set_prefix : jsval;
  set_suffix : jsval;
  set_globalize : jsval;
  set_cacheDns : jsval;
  set_mock : jsval
}.

(** The properties of [host || {}]: those of an options object, and
    [undefined] for the properties of anything else. *)
Definition settings_of (host : first_argument) : settings :=
  match host with
  | Opts o =>
      {| set_host := Val (opt_host o); set_port := opt_port o;
         set_prefix := opt_prefix o; set_suffix := opt_suffix o;
         set_globalize := opt_globalize o; set_cacheDns := opt_cacheDns o;
         set_mock := opt_mock o |}
  | Val _ =>
      {| set_host := Val VUndefined; set_port := VUndefined;
         set_prefix := VUndefined; set_suffix := VUndefined;
         set_globalize := VUndefined; set_cacheDns := VUndefined;
         set_mock := VUndefined |}
  end.

Definition construct (args : arguments) : construction :=
  let host := match args with NoArgs => Val VUndefined | Args first _ => first end in
  let rest := match args with NoArgs => [] | Args _ rest => rest end in
  let param (i : nat) := nth i rest VUndefined in
  let options :=
    (* arguments.length > 1 || typeof(host) === 'string' *)
    if negb (Nat.eqb (length rest) 0) || is_string_first host then
      {| set_host := host; set_port := param 0; set_prefix := param 1;
         set_suffix := param 2; set_globalize := param 3;
         set_cacheDns := param 4; set_mock := VBool (is_true (param 5)) |}
    else settings_of host in
  {| this :=
       {| this_host :=
            if truthy_first (set_host options) then set_host options
            else Val (VStr "localhost");
          this_port := js_or (set_port options) (VNum 8125);
          this_prefix := js_or (set_prefix options) (VStr "");
          this_suffix := js_or (set_suffix options) (VStr "");
          this_mock := set_mock options |};
     lookup :=
       if is_true (set_cacheDns options) then Some (set_host options) else None;
     globalized := truthy (set_globalize options) |}.

(** The callback of [dns.lookup]: [if(err == null) self.host = address]. *)
Definition resolved (i : instance) (err : option error) (address : string)
    : instance :=
  match err with
  | None =>
      {| this_host := Val (VStr address); this_port := this_port i;
         this_prefix := this_prefix i; this_suffix := this_suffix i;
         this_mock := this_mock i |}
  | Some _ => i
  end.

(** The instance as the send path reads it, when its host, prefix and suffix
    are strings; [!this.mock] tests the truthiness of [mock]. *)
Definition client_of (i : instance) : option Client :=
  match this_host i, this_prefix i, this_suffix i with
  | Val (VStr h), VStr p, VStr s =>
      Some {| host := h; port := this_port i; prefix := p; suffix := s;
              mock := truthy (this_mock i) |}
  | _, _, _ => None
  end.

(** ** [measureRoute] *)

(** A reading of [process.hrtime]: seconds and nanoseconds. *)
Definition hrtime : Type := float * float.

(** What the host supplies to the middleware. *)
Class Timing : Type := {
  (** [process.hrtime(since)] at the instant of the reading [now] *)
  elapsed : hrtime -> hrtime -> hrtime;
  (** [Number.prototype.toFixed], with 0 digits *)
  to_fixed : float -> string
}.

(** The world and the clock: the readings of [process.hrtime], by call
    number, and how many were made. *)
Record process : Type := {
  io : world;
  clock : nat -> hrtime;
  reads : nat
}.

Definition read_clock (p : process) : hrtime * process :=
  (clock p (reads p), {| io := io p; clock := clock p; reads := S (reads p) |}).

Definition on_io (f : world -> world) (p : process) : process :=
  {| io := f (io p); clock := clock p; reads := reads p |}.

(** One element of [req.measurements]. *)
Record measurement : Type := {
  key : jsval;
  time : hrtime;
  diff : jsval
}.

(** What [measure] keeps of a request: the variable [route] of the call and
    [req.measurements]. *)
Record tracked : Type := {
  route : string;
  measurements : list measurement
}.

(** The characters [:] (code 58) and [*] (code 42). *)
Definition colon : Ascii.ascii := Ascii.ascii_of_nat 58.
Definition star : Ascii.ascii := Ascii.ascii_of_nat 42.

(** [path.replace(/\:/g, '*')] *)
Fixpoint replace_colons (path : string) : string :=
  match path with
  | EmptyString => EmptyString
  | String a rest =>
      String (if Ascii.eqb a colon then star else a) (replace_colons rest)
  end.

Section Middleware.
Context {rt : Runtime} {tm : Timing}.

(** [toMillis]: [(hrtime[0] * 1e3 + hrtime[1] * 1e-6).toFixed(0)] *)
Definition toMillis (t : hrtime) : string :=
  to_fixed (fst t * 1000 + snd t * 0x1.0c6f7a0b5ed8dp-20)%float.

(** The body of [measure] up to [next()]: the route, and the first
    measurement. *)
Definition measure (path : string) (p : process) : tracked * process :=
  let route := replace_colons path in
  let '(now, p) := read_clock p in
  ({| route := route;
      measurements := [{| key := VStr "initial"; time := now; diff := VNum 0 |}] |},
   p).

(** [req.time(key)]. [None] is the [TypeError] of [last.time] when
    [req.measurements] is empty. *)
Definition req_time (k : jsval) (r : tracked) (p : process)
    : option (tracked * process) :=
  match last (measurements r) with
  | None => None
  | Some l =>
      let '(now, p) := read_clock p in
      let d := toMillis (elapsed now (time l)) in
      let '(now, p) := read_clock p in
      Some ({| route := route r;
               measurements :=
                 measurements r ++ [{| key := k; time := now; diff := VStr d |}] |},
            p)
  end.

(** The tags of a part and the call of [histogram] for it. *)
Definition report_part (c : Client) (name : jsval) (r : tracked)
    (w : world) (m : measurement) : world :=
  histogram c name (diff m)
    (VArr [VStr ("route:" +:+ route r); VStr ("part:" +:+ to_string (key m))])
    VUndefined VUndefined w.

(** The listener that [measure] hands to [onHeaders]. [None] is the
    [TypeError] of [req.measurements[0].time] when [req.measurements] is
    empty; the loop, from index 1, has run by then. *)
Definition on_headers (c : Client) (name : jsval) (r : tracked) (p : process)
    : option process :=
  let p := on_io (fun w => fold_left (report_part c name r) (tail (measurements r)) w) p in
  match measurements r with
  | [] => None
  | first :: _ =>
      let '(now, p) := read_clock p in
      let totalDiff := toMillis (elapsed now (time first)) in
      Some (on_io (histogram c (VStr (to_string name +:+ ".total")) (VStr totalDiff)
                     (VArr [VStr ("route:" +:+ route r)]) VUndefined VUndefined) p)
  end.
End Middleware.

(** * The vocabulary of the properties *)

(** ** Lines, calls and completions *)

(** The datagram [send] makes of a line. *)
Definition datagram_of (c : Client) (message : string) (cb : handler) : datagram :=
  {| buf := message; offset := 0; len := String.length message;
     dport := port c; dhost := host c; dcallback := cb |}.

(** The variables of a [sendAll] call whose callback has not been called. *)
Definition waiting (cb : jsval) (items : list jsval) (j : nat) (s : Z) : batch :=
  {| completed := j; calledback := false; sentBytes := s; callback := cb;
     stat := items |}.

(** The call [f(error)] and the call [f(null, bytes)], as the trace keeps them. *)
Definition failure_call (f : nat) (e : error) : invocation :=
  {| target := f; arg_error := Some e; arg_bytes := None |}.

Definition success_call (f : nat) (bytes : Z) : invocation :=
  {| target := f; arg_error := None; arg_bytes := Some bytes |}.

(** The sum of byte counts. *)
Definition total_bytes (bs : list Z) : Z := fold_right Z.add 0%Z bs.

(** One completion reaching the closure stored at [k]. *)
Definition settle (k : nat) (o : outcome) (w : world) : world :=
  match o with
  | Sent n => onSend k None n w
  | Failed e => onSend k (Some e) 0 w
  end.

Definition settle_all (k : nat) (os : list outcome) (w : world) : world :=
  fold_left (fun w o => settle k o w) os w.

(** The world after [d] more calls of [Math.random()]. *)
Definition skip_draws (d : nat) (w : world) : world :=
  {| entropy := entropy w; draws := d + draws w; socket := socket w;
     batches := batches w; trace := trace w |}.

(** How many names a [stat] argument stands for. *)
Definition names (stat : jsval) : nat :=
  match stat with
  | VArr items => length items
  | _ => 1
  end.

(** ** Counting the draws *)

Section Counting.
Context {rt : Runtime}.

(** Whether a call is sampled, and whether a draw lets it through: the two
    tests of the sampling block of [send]. *)
Definition sampled (sampleRate : jsval) : bool :=
  truthy sampleRate && js_lt sampleRate (VNum 1).

Definition let_through (sampleRate : jsval) (draw : float) : bool :=
  js_lt (VNum draw) sampleRate.

(** How many of [n] consecutive draws, from call number [start] of
    [Math.random()] on, are let through. *)
Fixpoint passing (sampleRate : jsval) (g : nat -> float) (start n : nat) : nat :=
  match n with
  | 0 => 0
  | S n =>
      (if let_through sampleRate (g start) then 1 else 0)
      + passing sampleRate g (S start) n
  end.

(** How many of the next [n] calls of [send] are not dropped. *)
Definition sent_count (sampleRate : jsval) (w : world) (n : nat) : nat :=
  if sampled sampleRate then passing sampleRate (entropy w) (draws w) n else n.

(** How many numbers the next [n] calls of [send] draw. *)
Definition drawn_count (sampleRate : jsval) (n : nat) : nat :=
  if sampled sampleRate then n else 0.
End Counting.

(** ** Datagrams, routes and requests *)

(** What a datagram of the client [c] looks like: the whole buffer, from
    offset 0, to the port and host of [c]. *)
Definition addressed (c : Client) (d : datagram) : Prop :=
  offset d = 0 /\ len d = String.length (buf d)
  /\ dport d = port c /\ dhost d = host c.

(** Whether a character occurs in a string. *)
Fixpoint occurs (a : Ascii.ascii) (s : string) : bool :=
  match s with
  | EmptyString => false
  | String b rest => Ascii.eqb b a || occurs a rest
  end.

Section Requests.
Context {rt : Runtime} {tm : Timing}.

(** The calls [req.time(k)] for the keys of [ks], one after the other. *)
Fixpoint times (ks : list jsval) (r : tracked) (p : process)
    : option (tracked * process) :=
  match ks with
  | [] => Some (r, p)
  | k :: ks =>
      match req_time k r p with
      | None => None
      | Some (r, p) => times ks r p
      end
  end.

(** The datagram that reports the part [m] of a request under the name
    [name], and the one that reports the total [total]. *)
Definition part_packet (c : Client) (name : string) (r : tracked)
    (m : measurement) : datagram :=
  datagram_of c
    ((prefix c +:+ name +:+ suffix c +:+ ":" +:+ to_string (diff m) +:+ "|h")
       +:+ "|#route:" +:+ route r +:+ ",part:" +:+ to_string (key m))
    (Direct VUndefined).

Definition total_packet (c : Client) (name : string) (r : tracked)
    (total : string) : datagram :=
  datagram_of c
    ((prefix c +:+ (name +:+ ".total") +:+ suffix c +:+ ":" +:+ total +:+ "|h")
       +:+ "|#route:" +:+ route r)
    (Direct VUndefined).

(** The measurements of a request, against the clock [g] read from call
    number [s] on: the measurement number [j] was taken at the reading
    [s + 2j], and the [diff] of its successor is the time elapsed since it at
    the reading in between. *)
Definition chained (g : nat -> hrtime) (s : nat) (ms : list measurement) : Prop :=
  (forall j m, ms !! j = Some m -> time m = g (s + 2 * j))
  /\ (forall j a b, ms !! j = Some a -> ms !! S j = Some b ->
        diff b = VStr (toMillis (elapsed (g (s + 2 * j + 1)) (time a)))).
End Requests.

(** ** A runtime to run the examples with *)

Module ExampleRuntime.
Import Stdlib.Strings.Ascii Stdlib.Strings.String.

Definition decimal (z : Z) : string :=
  DecimalString.NilZero.string_of_int (Z.to_int z).

Fixpoint drop_zeros (digits : list ascii) : list ascii :=
  match digits with
  | "0"%char :: rest => drop_zeros rest
  | _ => digits
  end.

(** The digits after the point of [r / 2^k], for [0 <= r < 2^k]:
    [r * 5^k] written on [k] digits, without the zeros at the end. *)
Definition fraction_digits (r : Z) (k : Z) : string :=
  let digits := list_ascii_of_string (decimal (r * 5 ^ k)) in
  let padded :=
    (List.repeat "0"%char (Z.to_nat k - List.length digits) ++ digits)%list in
  string_of_list_ascii (List.rev (drop_zeros (List.rev padded))).

(** A number in decimal: what ECMAScript prints for an integer below
    [10^21] in magnitude, for [NaN] and for the infinities. A number with a
    fraction is printed with all the digits of its exact value (as
    ECMAScript does for 0.5, 0.25 or 0.75, whose exact value is short). *)
Definition print_number (x : float) : string :=
  match Prim2SF x with
  | S754_nan => "NaN"
  | S754_infinity false => "Infinity"
  | S754_infinity true => "-Infinity"
  | S754_zero _ => "0"
  | S754_finite s m e =>
      let sign := if s then "-" else "" in
      if (0 <=? e)%Z then sign +:+ decimal (Z.pos m * 2 ^ e)
      else
        let q := (Z.pos m / 2 ^ (- e))%Z in
        let r := (Z.pos m mod 2 ^ (- e))%Z in
        if (r =? 0)%Z then sign +:+ decimal q
        else sign +:+ decimal q +:+ "." +:+ fraction_digits r (- e)
  end.

Fixpoint read_digits (acc : Z) (s : string) : option Z :=
  match s with
  | EmptyString => Some acc
  | String a rest =>
      let d := (Z.of_nat (nat_of_ascii a) - 48)%Z in
      if ((0 <=? d) && (d <=? 9))%Z then read_digits (10 * acc + d) rest
      else None
  end.

Definition float_of_Z (z : Z) : float :=
  match z with
  | Z0 => 0%float
  | Zpos _ => PrimFloat.of_uint63 (Uint63.of_Z z)
  | Zneg _ => PrimFloat.opp (PrimFloat.of_uint63 (Uint63.of_Z (- z)))
  end.

(** Reads the empty string as 0 and a run of decimal digits, with or
    without a minus sign in front, as that integer (exact below [2^53]);
    any other string reads as [NaN]. *)
Definition read_number (s : string) : float :=
  match s with
  | EmptyString => 0%float
  | String "-"%char (String _ _ as digits) =>
      match read_digits 0 digits with
      | Some z => float_of_Z (- z)
      | None => PrimFloat.nan
      end
  | _ =>
      match read_digits 0 s with
      | Some z => float_of_Z z
      | None => PrimFloat.nan
      end
  end.

#[export] Instance runtime : Runtime := {
  number_to_string := print_number;
  string_to_number := read_number;
  function_to_string := fun _ => "function () { [native code] }"
}.
End ExampleRuntime.

(** ** A clock to run the examples with *)

Module ExampleTiming.
(** [process.hrtime(before)] at the reading [now]: the difference of the
    seconds and of the nanoseconds, with a borrow when the latter is below
    zero. *)
Definition since (now before : hrtime) : hrtime :=
  let s := (fst now - fst before)%float in
  let n := (snd now - snd before)%float in
  if (n <? 0)%float then ((s - 1)%float, (n + 1000000000)%float) else (s, n).

(** [x.toFixed(0)] for a number below [10^21] in magnitude: the nearest
    integer, the larger one in magnitude when two are as near, behind the sign
    of [x]. *)
Definition fixed (x : float) : string :=
  match Prim2SF x with
  | S754_nan => "NaN"
  | S754_infinity false => "Infinity"
  | S754_infinity true => "-Infinity"
  | S754_zero _ => "0"
  | S754_finite s m e =>
      let sign := if s then "-" else "" in
      if (0 <=? e)%Z then sign +:+ ExampleRuntime.decimal (Z.pos m * 2 ^ e)
      else
        let q := (Z.pos m / 2 ^ (- e))%Z in
        let r := (Z.pos m mod 2 ^ (- e))%Z in
        sign +:+ ExampleRuntime.decimal (if (2 ^ (- e) <=? 2 * r)%Z then q + 1 else q)
  end.

#[export] Instance timing : Timing := {
  elapsed := since;
  to_fixed := fixed
}.
End ExampleTiming.

(** ** The clients and worlds of the examples *)

(** A client that transmits and a mock client. *)
Definition udp : Client :=
  {| host := "localhost"; port := VNum 8125; prefix := "app."; suffix := ".prod";
     mock := false |}.

Definition quiet : Client :=
  {| host := "localhost"; port := VNum 8125; prefix := "app."; suffix := ".prod";
     mock := true |}.

(** A world in which nothing has happened and whose [Math.random()] gives
    the numbers of [g]. *)
Definition fresh (g : nat -> float) : world :=
  {| entropy := g; draws := 0; socket := []; batches := []; trace := [] |}.

(** Draws 0.25, 0.75, 0.25, 0.25, ... *)
Definition second_high (n : nat) : float :=
  match n with
  | 1 => 0.75%float
  | _ => 0.25%float
  end.

(** The datagram of [udp] for a line. *)
Definition packet (line : string) (cb : handler) : datagram :=
  {| buf := line; offset := 0; len := String.length line; dport := VNum 8125;
     dhost := "localhost"; dcallback := cb |}.

Definition abc : list jsval := [VStr "a"; VStr "b"; VStr "c"].

(** The datagrams of [increment(["a", "b", "c"], 1, f)] in a fresh world:
    their callback is the [onSend] of the first [sendAll] call. *)
Definition packet_a : datagram := packet "app.a.prod:1|c" (OnSend 0).
Definition packet_b : datagram := packet "app.b.prod:1|c" (OnSend 0).
Definition packet_c : datagram := packet "app.c.prod:1|c" (OnSend 0).

(** With a rate of 0.5 and the draws 0.25, 0.75, 0.25, the name ["b"] is
    dropped. *)
Definition sampled_a : datagram := packet "app.a.prod:1|c|@0.5" (OnSend 0).
Definition sampled_c : datagram := packet "app.c.prod:1|c|@0.5" (OnSend 0).

(** A process in which nothing has happened and whose clock gives the
    readings 0 s, 1.5 s, 3 s, 4.5 s, ... *)
Definition ticking : process :=
  {| io := fresh second_high;
     clock := fun n =>
       (ExampleRuntime.float_of_Z (Z.of_nat (3 * n / 2)),
        if Nat.even n then 0%float else 500000000%float);
     reads := 0 |}.

(** A world in which a first fan-out over ["a", "b", "c"] has been made. *)
Definition busy : world :=
  sendAll (rt := ExampleRuntime.runtime) udp (VArr abc) (VNum 1) (VStr "c")
    VUndefined VUndefined (VFun 7) (fresh second_high).

(** * Properties *)

(** ** Numbers *)

(** Comparing two floats the other way round mirrors the result. *)
Lemma SFcompare_swap (x y : spec_float) :
  SFcompare y x = option_map CompOpp (SFcompare x y).
Proof.
  destruct x as [sx|sx| |sx mx ex], y as [sy|sy| |sy my ey]; simpl;
    try reflexivity;
    try (destruct sx; reflexivity);
    try (destruct sy; reflexivity);
    try (destruct sx, sy; reflexivity).
  change (Pos.compare_cont Eq my mx) with (my ?= mx)%positive.
  change (Pos.compare_cont Eq mx my) with (mx ?= my)%positive.
  destruct sx, sy; simpl; try reflexivity;
    rewrite (Z.compare_antisym ey ex), (Pos.compare_antisym my mx);
    destruct (ey ?= ex)%Z; simpl; try reflexivity;
    destruct (my ?= mx)%positive; reflexivity.
Qed.

(** [d >= r] excludes [d < r]. *)
Lemma leb_not_ltb (r d : float) :
  PrimFloat.leb r d = true -> PrimFloat.ltb d r = false.
Proof.
  rewrite FloatAxioms.leb_spec, FloatAxioms.ltb_spec. unfold SFleb, SFltb.
  rewrite (SFcompare_swap (Prim2SF r) (Prim2SF d)).
  destruct (SFcompare (Prim2SF r) (Prim2SF d)) as [[]|]; simpl; congruence.
Qed.

(** A number above zero is truthy: every sample rate of the interval (0, 1]
    passes the test [sampleRate && ...]. *)
Lemma positive_truthy (r : float) :
  PrimFloat.ltb 0 r = true -> truthy (VNum r) = true.
Proof.
  unfold truthy, PrimFloat.is_nan.
  rewrite FloatAxioms.ltb_spec, !FloatAxioms.eqb_spec. unfold SFltb, SFeqb.
  rewrite (SFcompare_swap (Prim2SF 0) (Prim2SF r)).
  change (Prim2SF 0) with (S754_zero false).
  destruct (Prim2SF r) as [s|s| |s m e]; simpl; try discriminate;
    destruct s; simpl; try discriminate; intros _;
    rewrite ?Z.compare_refl; simpl; rewrite ?Pos.compare_cont_refl;
    reflexivity.
Qed.

(** ** The wire line *)

Section Lines.
Context {rt : Runtime}.

Lemma to_string_array (items : list jsval) :
  to_string (VArr items) = array_join "," items.
Proof. reflexivity. Qed.

Lemma with_tags_array (message : string) (items : list jsval) :
  with_tags message (VArr items) = message +:+ "|#" +:+ array_join "," items.
Proof. reflexivity. Qed.

Lemma with_tags_absent (message : string) : with_tags message VUndefined = message.
Proof. reflexivity. Qed.

(** A call that is not sampled: the line goes out as it is. *)
Lemma send_unsampled c stat value type sampleRate tags cb w :
  truthy sampleRate && js_lt sampleRate (VNum 1) = false ->
  mock c = false ->
  send c stat value type sampleRate tags cb w =
  socket_send (datagram_of c (with_tags (base_line c stat value type) tags) cb) w.
Proof.
  intros Hs Hm. unfold send. rewrite Hs, Hm. reflexivity.
Qed.

(** A sampled call whose draw is below the rate. *)
Lemma send_passed c stat value type sampleRate tags cb w :
  truthy sampleRate && js_lt sampleRate (VNum 1) = true ->
  js_lt (VNum (entropy w (draws w))) sampleRate = true ->
  mock c = false ->
  send c stat value type sampleRate tags cb w =
  socket_send
    (datagram_of c
       (with_tags (base_line c stat value type +:+ "|@" +:+ to_string sampleRate)
          tags) cb)
    (snd (random w)).
Proof.
  intros Hs Hd Hm. unfold send. rewrite Hs. simpl. rewrite Hd, Hm. reflexivity.
Qed.

(** A sampled call whose draw is not below the rate: only the draw happened. *)
Lemma send_dropped c stat value type sampleRate tags cb w :
  truthy sampleRate && js_lt sampleRate (VNum 1) = true ->
  js_lt (VNum (entropy w (draws w))) sampleRate = false ->
  send c stat value type sampleRate tags cb w = snd (random w).
Proof.
  intros Hs Hd. unfold send. rewrite Hs. simpl. rewrite Hd. reflexivity.
Qed.

(** C1. A call [send(name, value, type)] without sample rate and without
    tags, on a client that transmits (not a mock), hands the socket exactly one
    datagram, and nothing else happens; the datagram holds the line
    [prefix + name + suffix + ":" + value + "|" + type], where [value] is
    printed as string concatenation prints it, whatever it is. *)
Theorem send_plain_line (c : Client) (name : string) (value : jsval)
    (type : string) (cb : handler) (w : world) :
  mock c = false ->
  let line := prefix c +:+ name +:+ suffix c +:+ ":" +:+ to_string value
                +:+ "|" +:+ type in
  send c (VStr name) value (VStr type) VUndefined VUndefined cb w =
    socket_send (datagram_of c line cb) w
  /\ socket (send c (VStr name) value (VStr type) VUndefined VUndefined cb w) =
     socket w ++ [{| buf := line; offset := 0; len := String.length line;
                     dport := port c; dhost := host c; dcallback := cb |}].
Proof.
  intros Hm line.
  assert (E : send c (VStr name) value (VStr type) VUndefined VUndefined cb w =
              socket_send (datagram_of c line cb) w).
  { rewrite send_unsampled by (reflexivity || assumption). reflexivity. }
  split; [exact E | rewrite E; reflexivity].
Qed.

(** C2. Sampling in [send], for a sample rate that is a number [r].
    When the rate is provided (it passes the test [sampleRate && ...], which
    every rate of the interval (0, 1] does, see [positive_truthy]) and is
    below 1, one number is drawn. If the draw is at least the rate, the call
    sends nothing and calls nothing: the socket, the trace and the stored
    [sendAll] variables are as before. If the draw is below the rate, the
    line gets ["|@" + r] after the type and before the tags, and a client that
    transmits hands it to the socket. With a rate of exactly 1 no number is
    drawn: the line goes out without ["|@"], whatever the draws would be. *)
Theorem send_sampling (c : Client) (stat value type : jsval) (r : float)
    (tags : jsval) (cb : handler) (w : world) :
  let draw := entropy w (draws w) in
  let line := base_line c stat value type in
  (truthy (VNum r) = true -> PrimFloat.ltb r 1 = true ->
     (PrimFloat.leb r draw = true ->
        socket (send c stat value type (VNum r) tags cb w) = socket w
        /\ trace (send c stat value type (VNum r) tags cb w) = trace w
        /\ batches (send c stat value type (VNum r) tags cb w) = batches w)
     /\ (PrimFloat.ltb draw r = true -> mock c = false ->
        send c stat value type (VNum r) tags cb w =
        socket_send
          (datagram_of c
             (with_tags (line +:+ "|@" +:+ number_to_string r) tags) cb)
          (snd (random w))))
  /\ (mock c = false ->
      send c stat value type (VNum 1) tags cb w =
      socket_send (datagram_of c (with_tags line tags) cb) w).
Proof.
  intros draw line. split.
  - intros Ht Hlt.
    assert (Hs : truthy (VNum r) && js_lt (VNum r) (VNum 1) = true).
    { rewrite Ht. exact Hlt. }
    split.
    + intros Hge. apply leb_not_ltb in Hge.
      rewrite (send_dropped c stat value type (VNum r) tags cb w Hs Hge).
      repeat split.
    + intros Hd Hm.
      exact (send_passed c stat value type (VNum r) tags cb w Hs Hd Hm).
  - intros Hm. apply send_unsampled; [reflexivity | exact Hm].
Qed.

(** C9. The tags branch of [send] is taken for every array, the empty one
    included: on a client that transmits, a call with [tags = []] that is not
    dropped by sampling sends a line that ends in ["|#"] with nothing after
    it, both when the call is not sampled and when its draw is below the
    rate. *)
Theorem send_empty_tags (c : Client) (stat value type sampleRate : jsval)
    (cb : handler) (w : world) :
  mock c = false ->
  let line := base_line c stat value type in
  (forall (message : string) (items : list jsval),
      with_tags message (VArr items) = message +:+ "|#" +:+ array_join "," items)
  /\ (truthy sampleRate && js_lt sampleRate (VNum 1) = false ->
      send c stat value type sampleRate (VArr []) cb w =
      socket_send (datagram_of c (line +:+ "|#") cb) w)
  /\ (truthy sampleRate && js_lt sampleRate (VNum 1) = true ->
      js_lt (VNum (entropy w (draws w))) sampleRate = true ->
      send c stat value type sampleRate (VArr []) cb w =
      socket_send
        (datagram_of c ((line +:+ "|@" +:+ to_string sampleRate) +:+ "|#") cb)
        (snd (random w))).
Proof.
  intros Hm line. split; [|split].
  - intros message items. reflexivity.
  - intros Hs. rewrite send_unsampled by assumption. reflexivity.
  - intros Hs Hd. rewrite send_passed by assumption. reflexivity.
Qed.
End Lines.

(** ** The arguments of [sendAll] *)

Section Arguments.
Context {rt : Runtime}.

(** What [sendAll] does after the two shifts. *)
Lemma sendAll_shifted c stat value type sampleRate tags callback w :
  sendAll c stat value type sampleRate tags callback w =
  let '(sampleRate', tags', callback') :=
    shift_arguments sampleRate tags callback in
  match stat with
  | VArr items =>
      send_each c (length (batches w)) value type sampleRate' tags' items
        (snd (new_batch {| completed := 0; calledback := false; sentBytes := 0;
                           callback := callback'; stat := items |} w))
  | _ => send c stat value type sampleRate' tags' (Direct callback') w
  end.
Proof.
  unfold sendAll.
  destruct (shift_arguments sampleRate tags callback) as [[s t] cb].
  destruct stat; reflexivity.
Qed.

(** A sample-rate slot that holds a value which is not a number: the value
    is taken as the tags and the next slot as the callback. *)
Lemma shift_sampleRate_slot (v next last : jsval) :
  truthy v = true -> is_number v = false ->
  shift_arguments v next last = shift_arguments VUndefined v next.
Proof.
  intros Hv Hn. unfold shift_arguments. rewrite Hv, Hn. reflexivity.
Qed.

(** A tags slot that holds a value which is not an array, behind a sample
    rate that stays where it is: the value is taken as the callback. *)
Lemma shift_tags_slot (s v last : jsval) :
  truthy s && negb (is_number s) = false ->
  truthy v = true -> is_array v = false ->
  shift_arguments s v last = (s, VUndefined, v).
Proof.
  intros Hs Hv Ha. unfold shift_arguments. rewrite Hs, Hv, Ha. reflexivity.
Qed.

(** After the shifts the sample rate is a number unless it is falsy, and the
    tags are an array unless they are falsy. *)
Lemma shift_arguments_sorted (s t cb : jsval) :
  let '(s', t', _) := shift_arguments s t cb in
  (truthy s' = true -> is_number s' = true)
  /\ (truthy t' = true -> is_array t' = true).
Proof.
  unfold shift_arguments.
  destruct (truthy s && negb (is_number s)) eqn:Es.
  - destruct (truthy s && negb (is_array s)) eqn:Et.
    + split; intros H; discriminate H.
    + split; [intros H; discriminate H|].
      intros H. rewrite H in Et. destruct (is_array s); [reflexivity | discriminate Et].
  - destruct (truthy t && negb (is_array t)) eqn:Et.
    + split; [|intros H; discriminate H].
      intros H. rewrite H in Es. destruct (is_number s); [reflexivity | discriminate Es].
    + split.
      * intros H. rewrite H in Es. destruct (is_number s); [reflexivity | discriminate Es].
      * intros H. rewrite H in Et. destruct (is_array t); [reflexivity | discriminate Et].
Qed.

(** C5. The shifting at the head of [sendAll] is the function
    [shift_arguments]: it gives every triple of slots one triple of
    parameters. A value held by the sample-rate slot (a truthy value, as every
    array and every function is) that is not a number is taken as the tags,
    with the next slot as the callback; a value held by the tags slot that is
    not an array is taken as the callback; what comes out has a number or a
    falsy value as sample rate and an array or a falsy value as tags, and the
    shifts leave it as it is. For a rate [r], tags [t] and a callback [f],
    each of the eight ways to call (rate or not, tags or not, callback or
    not) gives the parameters it was called with, and [undefined] for the
    ones left out. *)
Theorem sendAll_argument_shifting :
  (forall v next last : jsval,
      truthy v = true -> is_number v = false ->
      shift_arguments v next last = shift_arguments VUndefined v next)
  /\ (forall s v last : jsval,
      truthy s && negb (is_number s) = false ->
      truthy v = true -> is_array v = false ->
      shift_arguments s v last = (s, VUndefined, v))
  /\ (forall s t cb : jsval,
      let '(s', t', cb') := shift_arguments s t cb in
      (truthy s' = true -> is_number s' = true)
      /\ (truthy t' = true -> is_array t' = true)
      /\ shift_arguments s' t' cb' = (s', t', cb'))
  /\ (forall (r : float) (t : list jsval) (f : nat),
      let U := VUndefined in
      shift_arguments U U U = (U, U, U)
      /\ shift_arguments (VFun f) U U = (U, U, VFun f)
      /\ shift_arguments (VNum r) U U = (VNum r, U, U)
      /\ shift_arguments (VNum r) (VFun f) U = (VNum r, U, VFun f)
      /\ shift_arguments (VArr t) U U = (U, VArr t, U)
      /\ shift_arguments (VArr t) (VFun f) U = (U, VArr t, VFun f)
      /\ shift_arguments (VNum r) (VArr t) U = (VNum r, VArr t, U)
      /\ shift_arguments (VNum r) (VArr t) (VFun f) = (VNum r, VArr t, VFun f)).
Proof.
  split; [exact shift_sampleRate_slot|].
  split; [exact shift_tags_slot|].
  split.
  - intros s t cb. pose proof (shift_arguments_sorted s t cb) as H.
    destruct (shift_arguments s t cb) as [[s' t'] cb'].
    destruct H as [Hs Ht]. split; [exact Hs|]. split; [exact Ht|].
    unfold shift_arguments.
    assert (Es : truthy s' && negb (is_number s') = false).
    { destruct (truthy s'); [rewrite Hs by reflexivity|]; reflexivity. }
    assert (Et : truthy t' && negb (is_array t') = false).
    { destruct (truthy t'); [rewrite Ht by reflexivity|]; reflexivity. }
    rewrite Es, Et. reflexivity.
  - intros r t f U. subst U. unfold shift_arguments. simpl.
    rewrite !andb_false_r. repeat split.
Qed.

(** *** [decrement] *)

(** Without a value, [decrement] sends the counter -1. *)
Lemma decrement_default c stat sampleRate tags callback w :
  decrement c stat VUndefined sampleRate tags callback w =
  sendAll c stat (VNum (-1)) (VStr "c") sampleRate tags callback w.
Proof. reflexivity. Qed.

(** With a number [v] whose opposite is truthy (neither zero nor [NaN]),
    [decrement] sends the counter [-v]. *)
Lemma decrement_explicit c stat (v : float) sampleRate tags callback w :
  truthy (VNum (- v)) = true ->
  decrement c stat (VNum v) sampleRate tags callback w =
  sendAll c stat (VNum (- v)) (VStr "c") sampleRate tags callback w.
Proof.
  intros Hv. unfold decrement, js_or, js_neg. simpl to_number. rewrite Hv.
  reflexivity.
Qed.

(** C7, at the value 0. [decrement(stat, 0)] does not send the counter
    [-0]: the opposite of 0 is falsy, so [-value || -1] is -1, and the call
    sends what [decrement(stat)] sends. *)
Theorem decrement_zero_sends_minus_one c stat sampleRate tags callback w :
  decrement c stat (VNum 0) sampleRate tags callback w =
  sendAll c stat (VNum (-1)) (VStr "c") sampleRate tags callback w
  /\ decrement c stat (VNum 0) sampleRate tags callback w =
     decrement c stat VUndefined sampleRate tags callback w.
Proof. split; reflexivity. Qed.

(** *** No name at all *)

(** C8. [sendAll] on an empty array of names hands nothing to the socket,
    draws no number and calls nothing, whatever the other arguments are; as
    no datagram carries its [onSend], the callback is not called later
    either. *)
Theorem sendAll_no_names c value type sampleRate tags callback w :
  socket (sendAll c (VArr []) value type sampleRate tags callback w) = socket w
  /\ trace (sendAll c (VArr []) value type sampleRate tags callback w) = trace w
  /\ draws (sendAll c (VArr []) value type sampleRate tags callback w) = draws w.
Proof.
  rewrite sendAll_shifted.
  destruct (shift_arguments sampleRate tags callback) as [[s t] cb].
  repeat split.
Qed.
End Arguments.

(** ** The closure [onSend] *)

Lemma lookup_set_batch k b w :
  k < length (batches w) -> batches (set_batch k b w) !! k = Some b.
Proof. intros H. simpl. apply list_lookup_insert_eq. exact H. Qed.

Lemma onSend_socket k err n w : socket (onSend k err n w) = socket w.
Proof.
  unfold onSend. destruct (batches w !! k) as [b|]; [|reflexivity].
  simpl. destruct (calledback b || negb (is_function (callback b))); [reflexivity|].
  destruct err; [destruct (callback b); reflexivity|].
  destruct (Nat.eqb (completed b + 1) (length (stat b))); [|reflexivity].
  destruct (callback b); reflexivity.
Qed.

Lemma onSend_draws k err n w :
  draws (onSend k err n w) = draws w /\ entropy (onSend k err n w) = entropy w.
Proof.
  unfold onSend. destruct (batches w !! k) as [b|]; [|split; reflexivity].
  simpl. destruct (calledback b || negb (is_function (callback b))); [split; reflexivity|].
  destruct err; [destruct (callback b); split; reflexivity|].
  destruct (Nat.eqb (completed b + 1) (length (stat b))); [|split; reflexivity].
  destruct (callback b); split; reflexivity.
Qed.

Lemma onSend_length k err n w :
  length (batches (onSend k err n w)) = length (batches w).
Proof.
  unfold onSend. destruct (batches w !! k) as [b|]; [|reflexivity].
  simpl. destruct (calledback b || negb (is_function (callback b)));
    [simpl; apply length_insert|].
  destruct err; [destruct (callback b); simpl; apply length_insert|].
  destruct (Nat.eqb (completed b + 1) (length (stat b))); [|simpl; apply length_insert].
  destruct (callback b); simpl; apply length_insert.
Qed.

(** A success that is not the last completion: the bytes are added. *)
Lemma onSend_success_more k f items j s n w :
  batches w !! k = Some (waiting (VFun f) items j s) ->
  j + 1 <> length items ->
  batches (onSend k None n w) !! k = Some (waiting (VFun f) items (j + 1) (s + n))
  /\ trace (onSend k None n w) = trace w.
Proof.
  intros Hb Hj. unfold onSend. rewrite Hb. simpl.
  destruct (Nat.eqb_spec (j + 1) (length items)) as [E|_]; [contradiction|].
  split; [|reflexivity].
  apply lookup_set_batch. apply lookup_lt_Some with (1 := Hb).
Qed.

(** The success that completes the count: the callback gets the total. *)
Lemma onSend_success_last k f items j s n w :
  batches w !! k = Some (waiting (VFun f) items j s) ->
  j + 1 = length items ->
  batches (onSend k None n w) !! k = Some (waiting (VFun f) items (j + 1) (s + n))
  /\ trace (onSend k None n w) = trace w ++ [success_call f (s + n)].
Proof.
  intros Hb Hj. unfold onSend. rewrite Hb. simpl.
  destruct (Nat.eqb_spec (j + 1) (length items)) as [_|E]; [|contradiction].
  split; [|reflexivity].
  apply (lookup_set_batch k _ w). apply lookup_lt_Some with (1 := Hb).
Qed.

(** An error while the callback has not been called: it gets the error. *)
Lemma onSend_error k f items j s e n w :
  batches w !! k = Some (waiting (VFun f) items j s) ->
  (exists b, batches (onSend k (Some e) n w) !! k = Some b /\ calledback b = true)
  /\ trace (onSend k (Some e) n w) = trace w ++ [failure_call f e].
Proof.
  intros Hb. unfold onSend. rewrite Hb. simpl.
  split; [|reflexivity].
  eexists. split; [|shelve].
  apply (lookup_set_batch k _ w). apply lookup_lt_Some with (1 := Hb).
  Unshelve. reflexivity.
Qed.

(** Once the callback has been called with an error, nothing calls it. *)
Lemma onSend_called k b err n w :
  batches w !! k = Some b -> calledback b = true ->
  (exists b', batches (onSend k err n w) !! k = Some b' /\ calledback b' = true)
  /\ trace (onSend k err n w) = trace w.
Proof.
  intros Hb Hc. unfold onSend. rewrite Hb. simpl. rewrite Hc. simpl.
  split; [|reflexivity].
  eexists. split; [apply lookup_set_batch; apply lookup_lt_Some with (1 := Hb)|].
  reflexivity.
Qed.

(** A callback that is not a function is never called. *)
Lemma onSend_no_function k b err n w :
  batches w !! k = Some b -> is_function (callback b) = false ->
  (exists b', batches (onSend k err n w) !! k = Some b'
              /\ is_function (callback b') = false)
  /\ trace (onSend k err n w) = trace w.
Proof.
  intros Hb Hc. unfold onSend. rewrite Hb. simpl. rewrite Hc, orb_true_r.
  split; [|reflexivity].
  eexists. split; [apply lookup_set_batch; apply lookup_lt_Some with (1 := Hb)|].
  exact Hc.
Qed.

(** *** Runs of completions *)

Lemma settle_all_app k os1 os2 w :
  settle_all k (os1 ++ os2) w = settle_all k os2 (settle_all k os1 w).
Proof. unfold settle_all. apply fold_left_app. Qed.

Lemma settle_all_frame k os : forall w,
  socket (settle_all k os w) = socket w
  /\ draws (settle_all k os w) = draws w
  /\ entropy (settle_all k os w) = entropy w
  /\ length (batches (settle_all k os w)) = length (batches w).
Proof.
  induction os as [|o os IH]; intros w; [repeat split|].
  change (settle_all k (o :: os) w) with (settle_all k os (settle k o w)).
  destruct (IH (settle k o w)) as (Hs & Hd & He & Hl).
  rewrite Hs, Hd, He, Hl.
  destruct o as [n|e]; simpl;
    rewrite onSend_socket, onSend_length;
    destruct (onSend_draws k None n w) as [-> ->] ||
    destruct (onSend_draws k (Some e) 0 w) as [-> ->];
    repeat split.
Qed.

(** Successes short of the count: the bytes add up and nothing is called. *)
Lemma settle_sent_short k f items bs : forall j s w,
  batches w !! k = Some (waiting (VFun f) items j s) ->
  j + length bs < length items ->
  batches (settle_all k (map Sent bs) w) !! k =
    Some (waiting (VFun f) items (j + length bs) (s + total_bytes bs))
  /\ trace (settle_all k (map Sent bs) w) = trace w.
Proof.
  induction bs as [|b bs IH]; intros j s w Hb Hj.
  - simpl. rewrite Nat.add_0_r, Z.add_0_r. split; [exact Hb | reflexivity].
  - simpl in Hj.
    change (settle_all k (map Sent (b :: bs)) w)
      with (settle_all k (map Sent bs) (onSend k None b w)).
    destruct (onSend_success_more k f items j s b w Hb ltac:(clear IH; lia))
      as [Hb1 Ht1].
    destruct (IH (j + 1) (s + b)%Z (onSend k None b w) Hb1 ltac:(clear IH; lia))
      as [Hb2 Ht2].
    rewrite Hb2, Ht2, Ht1. split; [|reflexivity].
    simpl. unfold waiting. do 2 f_equal; clear; lia.
Qed.

(** Successes that complete the count: one call, with the sum of the bytes. *)
Lemma settle_sent_exact k f items bs : forall j s w,
  batches w !! k = Some (waiting (VFun f) items j s) ->
  bs <> [] ->
  j + length bs = length items ->
  trace (settle_all k (map Sent bs) w) =
    trace w ++ [success_call f (s + total_bytes bs)].
Proof.
  induction bs as [|b bs IH]; intros j s w Hb Hne Hj; [contradiction|].
  change (settle_all k (map Sent (b :: bs)) w)
    with (settle_all k (map Sent bs) (onSend k None b w)).
  simpl in Hj. destruct bs as [|b' bs].
  - destruct (onSend_success_last k f items j s b w Hb ltac:(clear IH; simpl in Hj; lia))
      as [_ Ht].
    simpl. rewrite Ht, Z.add_0_r. reflexivity.
  - destruct (onSend_success_more k f items j s b w Hb ltac:(clear IH; simpl in Hj; lia))
      as [Hb1 Ht1].
    rewrite (IH (j + 1) (s + b)%Z (onSend k None b w) Hb1);
      [|discriminate | clear IH; simpl in *; lia].
    rewrite Ht1. do 3 f_equal. simpl. clear. lia.
Qed.

(** After the callback was called with an error, completions call nothing. *)
Lemma settle_called k os : forall b w,
  batches w !! k = Some b -> calledback b = true ->
  trace (settle_all k os w) = trace w.
Proof.
  induction os as [|o os IH]; intros b w Hb Hc; [reflexivity|].
  change (settle_all k (o :: os) w) with (settle_all k os (settle k o w)).
  destruct o as [n|e]; simpl.
  - destruct (onSend_called k b None n w Hb Hc) as [(b' & Hb' & Hc') Ht].
    rewrite (IH b' _ Hb' Hc'). exact Ht.
  - destruct (onSend_called k b (Some e) 0 w Hb Hc) as [(b' & Hb' & Hc') Ht].
    rewrite (IH b' _ Hb' Hc'). exact Ht.
Qed.

(** Without a function to call, completions call nothing. *)
Lemma settle_no_function k os : forall b w,
  batches w !! k = Some b -> is_function (callback b) = false ->
  trace (settle_all k os w) = trace w.
Proof.
  induction os as [|o os IH]; intros b w Hb Hc; [reflexivity|].
  change (settle_all k (o :: os) w) with (settle_all k os (settle k o w)).
  destruct o as [n|e]; simpl.
  - destruct (onSend_no_function k b None n w Hb Hc) as [(b' & Hb' & Hc') Ht].
    rewrite (IH b' _ Hb' Hc'). exact Ht.
  - destruct (onSend_no_function k b (Some e) 0 w Hb Hc) as [(b' & Hb' & Hc') Ht].
    rewrite (IH b' _ Hb' Hc'). exact Ht.
Qed.

(** Successes, then an error before the count is complete: the callback is
    called once, with that error, whatever follows. *)
Lemma settle_first_error k f items bs e post j s w :
  batches w !! k = Some (waiting (VFun f) items j s) ->
  j + length bs < length items ->
  trace (settle_all k (map Sent bs ++ Failed e :: post) w) =
    trace w ++ [failure_call f e].
Proof.
  intros Hb Hj. rewrite settle_all_app.
  destruct (settle_sent_short k f items bs j s w Hb Hj) as [Hb1 Ht1].
  change (settle_all k (Failed e :: post) (settle_all k (map Sent bs) w))
    with (settle_all k post (onSend k (Some e) 0 (settle_all k (map Sent bs) w))).
  destruct (onSend_error k f items _ _ e 0 _ Hb1) as [(b' & Hb' & Hc') Ht].
  rewrite (settle_called k post b' _ Hb' Hc'), Ht, Ht1. reflexivity.
Qed.

(** A run of outcomes is all successes, or has a first error. *)
Lemma outcomes_first_error (os : list outcome) :
  (exists bs, os = map Sent bs)
  \/ (exists bs e post, os = map Sent bs ++ Failed e :: post).
Proof.
  induction os as [|o os IH]; [left; exists []; reflexivity|].
  destruct o as [n|e].
  - destruct IH as [(bs & ->)|(bs & e & post & ->)].
    + left. exists (n :: bs). reflexivity.
    + right. exists (n :: bs), e, post. reflexivity.
  - right. exists [], e, os. reflexivity.
Qed.

(** At most as many completions as names: the callback is called at most
    once. *)
Lemma settle_at_most_once k f items os j s w :
  batches w !! k = Some (waiting (VFun f) items j s) ->
  j + length os <= length items ->
  exists calls, trace (settle_all k os w) = trace w ++ calls /\ length calls <= 1.
Proof.
  intros Hb Hj.
  destruct (outcomes_first_error os) as [(bs & ->)|(bs & e & post & ->)].
  - rewrite length_map in Hj.
    destruct (decide (j + length bs = length items)) as [E|E].
    + destruct bs as [|b bs].
      * exists []. rewrite app_nil_r. split; [reflexivity | simpl; lia].
      * exists [success_call f (s + total_bytes (b :: bs))].
        split; [|simpl; lia].
        apply (settle_sent_exact k f items (b :: bs) j s w Hb); [discriminate | exact E].
    + exists []. rewrite app_nil_r. split; [|simpl; lia].
      apply (settle_sent_short k f items bs j s w Hb). lia.
  - exists [failure_call f e]. split; [|simpl; lia].
    apply (settle_first_error k f items bs e post j s w Hb).
    rewrite length_app, length_map in Hj. simpl in Hj. lia.
Qed.

(** Completions of datagrams that all carry the same [onSend]. *)
Lemma deliver_settle k events : forall w,
  Forall (fun ev => dcallback (fst ev) = OnSend k) events ->
  deliver events w = settle_all k (map snd events) w.
Proof.
  induction events as [|[d o] events IH]; intros w H; [reflexivity|].
  inversion H as [|? ? Hd Hrest]; subst. simpl in Hd.
  change (deliver ((d, o) :: events) w) with (deliver events (complete d o w)).
  rewrite (IH _ Hrest). simpl.
  unfold complete, settle, settle_all. rewrite Hd. destruct o; reflexivity.
Qed.

(** ** The fan-out of [sendAll] *)

Lemma skip_draws_random w : snd (random w) = skip_draws 1 w.
Proof. reflexivity. Qed.

Lemma skip_draws_none w : skip_draws 0 w = w.
Proof. destruct w; reflexivity. Qed.

Lemma skip_draws_more d1 d2 w :
  skip_draws d1 (skip_draws d2 w) = skip_draws (d1 + d2) w.
Proof. unfold skip_draws. simpl. f_equal. lia. Qed.

Lemma onSend_skip_draws k err n d w :
  onSend k err n (skip_draws d w) = skip_draws d (onSend k err n w).
Proof.
  unfold onSend. simpl. destruct (batches w !! k) as [b|]; [|reflexivity].
  simpl. destruct (calledback b || negb (is_function (callback b))); [reflexivity|].
  destruct err; [destruct (callback b); reflexivity|].
  destruct (Nat.eqb (completed b + 1) (length (stat b))); [|reflexivity].
  destruct (callback b); reflexivity.
Qed.

Lemma settle_all_skip_draws k os d : forall w,
  settle_all k os (skip_draws d w) = skip_draws d (settle_all k os w).
Proof.
  induction os as [|o os IH]; intros w; [reflexivity|].
  change (settle_all k (o :: os) (skip_draws d w))
    with (settle_all k os (settle k o (skip_draws d w))).
  change (settle_all k (o :: os) w) with (settle_all k os (settle k o w)).
  rewrite <- IH. f_equal. destruct o; simpl; apply onSend_skip_draws.
Qed.

Section Fanout.
Context {rt : Runtime}.

Lemma passing_bound sampleRate g n : forall start,
  passing sampleRate g start n <= n.
Proof.
  induction n as [|n IH]; intros start; simpl; [lia|].
  specialize (IH (S start)). destruct (let_through sampleRate (g start)); lia.
Qed.

Lemma sent_count_bound sampleRate w n : sent_count sampleRate w n <= n.
Proof.
  unfold sent_count. destruct (sampled sampleRate); [apply passing_bound | lia].
Qed.

(** One draw that is not let through leaves fewer sends than names. *)
Lemma passing_dropped sampleRate g n : forall start i,
  i < n -> let_through sampleRate (g (start + i)) = false ->
  passing sampleRate g start n < n.
Proof.
  induction n as [|n IH]; intros start i Hi Hd; [lia|].
  simpl. destruct i as [|i].
  - rewrite Nat.add_0_r in Hd. rewrite Hd.
    pose proof (passing_bound sampleRate g n (S start)). lia.
  - assert (H : passing sampleRate g (S start) n < n).
    { apply (IH (S start) i); [lia|].
      replace (S start + i) with (start + S i) by lia. exact Hd. }
    destruct (let_through sampleRate (g start)); lia.
Qed.

(** All draws let through: as many sends as names. *)
Lemma passing_all sampleRate g n : forall start,
  (forall i, i < n -> let_through sampleRate (g (start + i)) = true) ->
  passing sampleRate g start n = n.
Proof.
  induction n as [|n IH]; intros start H; [reflexivity|].
  simpl. rewrite <- (Nat.add_0_r start) at 1. rewrite (H 0) by lia.
  rewrite IH; [reflexivity|].
  intros i Hi. replace (S start + i) with (start + S i) by lia. apply H. lia.
Qed.

(** The fan-out of a client that transmits: the socket gets one datagram for
    each name that is not dropped, each with the [onSend] of the call; nothing
    is called and no stored variable changes. *)
Lemma send_each_transmits c k value type sampleRate tags items : forall w,
  mock c = false ->
  let w' := send_each c k value type sampleRate tags items w in
  batches w' = batches w /\ trace w' = trace w /\ entropy w' = entropy w
  /\ draws w' = drawn_count sampleRate (length items) + draws w
  /\ exists ds, socket w' = socket w ++ ds
       /\ Forall (fun d => dcallback d = OnSend k) ds
       /\ length ds = sent_count sampleRate w (length items).
Proof.
  intros w Hm. revert w.
  induction items as [|item items IH]; intros w; simpl.
  - repeat split.
    + unfold drawn_count. destruct (sampled sampleRate); reflexivity.
    + exists []. rewrite app_nil_r. repeat split; [constructor|].
      unfold sent_count. destruct (sampled sampleRate); reflexivity.
  - change (send_each c k value type sampleRate tags (item :: items) w)
      with (send_each c k value type sampleRate tags items
              (send c item value type sampleRate tags (OnSend k) w)).
    specialize (IH (send c item value type sampleRate tags (OnSend k) w)).
    simpl in IH. destruct IH as (Hb & Ht & He & Hd & ds & Hs & Hf & Hl).
    rewrite Hb, Ht, He, Hd, Hs. clear Hb Ht He Hd Hs.
    unfold sent_count, drawn_count in *. fold (sampled sampleRate) in *.
    destruct (sampled sampleRate) eqn:Es.
    + destruct (let_through sampleRate (entropy w (draws w))) eqn:Ed.
      * rewrite (send_passed c item value type sampleRate tags (OnSend k) w Es Ed Hm) in *.
        simpl in *. repeat split; [lia|].
        eexists (_ :: ds). rewrite <- app_assoc. split; [reflexivity|].
        split; [constructor; [reflexivity | exact Hf]|].
        simpl. rewrite Ed, Hl. reflexivity.
      * rewrite (send_dropped c item value type sampleRate tags (OnSend k) w Es Ed) in *.
        simpl in *. repeat split; [lia|].
        exists ds. split; [reflexivity|]. split; [exact Hf|].
        rewrite Ed, Hl. reflexivity.
    + rewrite (send_unsampled c item value type sampleRate tags (OnSend k) w Es Hm) in *.
      simpl in *. repeat split.
      eexists (_ :: ds). rewrite <- app_assoc. split; [reflexivity|].
      split; [constructor; [reflexivity | exact Hf]|].
      simpl. rewrite Hl. reflexivity.
Qed.

(** The fan-out of a mock client: each name that is not dropped completes on
    the spot with 0 bytes; the socket is not used. *)
Lemma send_each_mock c k value type sampleRate tags items : forall w,
  mock c = true ->
  send_each c k value type sampleRate tags items w =
  skip_draws (drawn_count sampleRate (length items))
    (settle_all k (repeat (Sent 0) (sent_count sampleRate w (length items))) w).
Proof.
  intros w Hm. revert w.
  induction items as [|item items IH]; intros w.
  - unfold sent_count, drawn_count. simpl.
    destruct (sampled sampleRate); simpl; symmetry; apply skip_draws_none.
  - change (send_each c k value type sampleRate tags (item :: items) w)
      with (send_each c k value type sampleRate tags items
              (send c item value type sampleRate tags (OnSend k) w)).
    rewrite IH. unfold sent_count, drawn_count. unfold send.
    fold (sampled sampleRate). destruct (sampled sampleRate) eqn:Es; simpl.
    + fold (let_through sampleRate (entropy w (draws w))).
      destruct (let_through sampleRate (entropy w (draws w))) eqn:Ed; simpl.
      * rewrite Hm. simpl.
        change ({| entropy := entropy w; draws := S (draws w); socket := socket w;
                   batches := batches w; trace := trace w |})
          with (skip_draws 1 w).
        rewrite onSend_skip_draws, settle_all_skip_draws, skip_draws_more.
        destruct (onSend_draws k None 0 w) as [Hd He].
        simpl. rewrite He, Hd.
        replace (length items + 1) with (S (length items)) by lia.
        reflexivity.
      * change ({| entropy := entropy w; draws := S (draws w); socket := socket w;
                   batches := batches w; trace := trace w |})
          with (skip_draws 1 w).
        rewrite settle_all_skip_draws, skip_draws_more. simpl.
        replace (length items + 1) with (S (length items)) by lia.
        reflexivity.
    + rewrite Hm. simpl. reflexivity.
Qed.
End Fanout.

(** ** The aggregate callback *)

Lemma new_batch_lookup b w :
  batches (snd (new_batch b w)) !! length (batches w) = Some b.
Proof. simpl. apply list_lookup_middle. reflexivity. Qed.

Lemma total_bytes_permutation (bs bs' : list Z) :
  Permutation bs bs' -> total_bytes bs = total_bytes bs'.
Proof.
  induction 1 as [|b l l' _ IH|a b l|l l' l'' _ IH1 _ IH2]; simpl.
  - reflexivity.
  - rewrite IH. reflexivity.
  - lia.
  - congruence.
Qed.

Lemma combine_handlers {A} (P : datagram -> Prop) (ds : list datagram) :
  Forall P ds -> forall os : list A, Forall (fun ev => P (fst ev)) (combine ds os).
Proof.
  induction 1 as [|d ds Hd _ IH]; intros os; [constructor|].
  destruct os as [|o os]; [constructor|].
  simpl. constructor; [exact Hd | apply IH].
Qed.

Lemma combine_outcomes {A} (ds : list datagram) : forall os : list A,
  length os = length ds -> map snd (combine ds os) = os.
Proof.
  induction ds as [|d ds IH]; intros [|o os] H; simpl in *; try discriminate;
    [reflexivity|].
  rewrite IH by lia. reflexivity.
Qed.

(** Completions of some of the datagrams, each at most once, are no more than
    the datagrams and carry their handler. *)
Lemma completions_of {A} (P : datagram -> Prop) (events : list (datagram * A))
    (rest ds : list datagram) :
  Permutation (map fst events ++ rest) ds -> Forall P ds ->
  length events <= length ds /\ Forall (fun ev => P (fst ev)) events.
Proof.
  intros Hp Hf. split.
  - rewrite <- (Permutation_length Hp), length_app, length_map. lia.
  - apply Permutation_sym in Hp.
    pose proof (Permutation_Forall Hp Hf) as H.
    apply Forall_app in H. destruct H as [H _].
    rewrite List.Forall_map in H. exact H.
Qed.

Section Aggregate.
Context {rt : Runtime}.

(** The state of the array branch of [sendAll] on a client that transmits,
    for the parameters [s], [t] and [cb] that come out of the shifts. *)
Lemma sendAll_transmits c items value type sampleRate tags callback w s t cb :
  shift_arguments sampleRate tags callback = (s, t, cb) ->
  mock c = false ->
  let w' := sendAll c (VArr items) value type sampleRate tags callback w in
  batches w' !! length (batches w) = Some (waiting cb items 0 0)
  /\ trace w' = trace w
  /\ exists ds, socket w' = socket w ++ ds
       /\ Forall (fun d => dcallback d = OnSend (length (batches w))) ds
       /\ length ds = sent_count s w (length items).
Proof.
  intros Hs Hm. simpl. rewrite sendAll_shifted, Hs.
  destruct (send_each_transmits c (length (batches w)) value type s t items
              (snd (new_batch (waiting cb items 0 0) w)) Hm)
    as (Hb & Ht & _ & _ & ds & Hso & Hf & Hl).
  unfold waiting in *. rewrite Hb, Ht. split; [apply new_batch_lookup|].
  split; [reflexivity|]. exists ds. split; [exact Hso|]. split; [exact Hf|].
  exact Hl.
Qed.

(** The state of the array branch of [sendAll] on a mock client. *)
Lemma sendAll_mock c items value type sampleRate tags callback w s t cb :
  shift_arguments sampleRate tags callback = (s, t, cb) ->
  mock c = true ->
  sendAll c (VArr items) value type sampleRate tags callback w =
  skip_draws (drawn_count s (length items))
    (settle_all (length (batches w))
       (repeat (Sent 0) (sent_count s w (length items)))
       (snd (new_batch (waiting cb items 0 0) w))).
Proof.
  intros Hs Hm. rewrite sendAll_shifted, Hs.
  rewrite (send_each_mock c (length (batches w)) value type s t items _ Hm).
  reflexivity.
Qed.

(** C3. [sendAll] on a non-empty array of names, with a function [f] as
    callback: when every name was handed to the socket ([ds], one datagram for
    each name) and every datagram completes without error, the datagram number
    [i] with [bs_i] bytes, then [f] is called exactly once, as [f(null, sum of
    the bs_i)], whatever the order [events] in which the completions arrive. *)
Theorem sendAll_all_sent (c : Client) (items : list jsval)
    (value type sampleRate tags callback : jsval) (f : nat) (w : world)
    (ds : list datagram) (bs : list Z) (events : list (datagram * outcome)) :
  items <> [] ->
  (shift_arguments sampleRate tags callback).2 = VFun f ->
  socket (sendAll c (VArr items) value type sampleRate tags callback w) =
    socket w ++ ds ->
  length ds = length items ->
  length bs = length ds ->
  Permutation events (combine ds (map Sent bs)) ->
  trace (deliver events
           (sendAll c (VArr items) value type sampleRate tags callback w)) =
    trace w ++ [success_call f (total_bytes bs)].
Proof.
  intros Hne Hcb Hsock Hall Hbs Hperm.
  destruct (shift_arguments sampleRate tags callback) as [[s t] cb] eqn:Hshift.
  simpl in Hcb. subst cb.
  destruct (mock c) eqn:Hm.
  - (* a mock client hands nothing to the socket *)
    exfalso. rewrite (sendAll_mock _ _ _ _ _ _ _ _ _ _ _ Hshift Hm) in Hsock.
    unfold skip_draws in Hsock. cbn [socket] in Hsock.
    destruct (settle_all_frame (length (batches w))
                (repeat (Sent 0) (sent_count s w (length items)))
                (snd (new_batch (waiting (VFun f) items 0 0) w))) as [Hso _].
    rewrite Hso in Hsock. simpl in Hsock.
    rewrite <- (app_nil_r (socket w)) in Hsock at 1.
    apply app_inv_head in Hsock. subst ds. destruct items; [contradiction|discriminate].
  - destruct (sendAll_transmits c items value type sampleRate tags callback w
                s t (VFun f) Hshift Hm) as (Hb & Ht & ds' & Hso & Hf & _).
    rewrite Hso in Hsock. apply app_inv_head in Hsock. subst ds'.
    assert (Hev : Forall (fun ev => dcallback (fst ev) = OnSend (length (batches w)))
                    events).
    { apply (Permutation_Forall (Permutation_sym Hperm)).
      apply (combine_handlers
               (fun d => dcallback d = OnSend (length (batches w)))).
      exact Hf. }
    rewrite (deliver_settle _ _ _ Hev).
    assert (Hos : Permutation (map snd events) (map Sent bs)).
    { rewrite <- (combine_outcomes ds (map Sent bs)) by (rewrite length_map; exact Hbs).
      apply Permutation_map. exact Hperm. }
    apply Permutation_map_inv in Hos. destruct Hos as (bs' & Hos & Hbs').
    rewrite Hos, (total_bytes_permutation bs bs' Hbs'), <- Ht.
    apply (settle_sent_exact _ f items bs' 0 0%Z _ Hb).
    + intros ->. apply Permutation_nil_r in Hbs'. subst bs.
      destruct items; [contradiction | simpl in *; lia].
    + simpl. rewrite <- (Permutation_length Hbs'). lia.
Qed.

(** Completions that are all successes. *)
Lemma all_sent_outcomes (events : list (datagram * outcome)) :
  Forall (fun ev => exists n, snd ev = Sent n) events ->
  exists bs, map snd events = map Sent bs.
Proof.
  induction 1 as [|[d o] events [n Hn] _ [bs IH]]; [exists []; reflexivity|].
  simpl in Hn. subst o. exists (n :: bs). simpl. rewrite IH. reflexivity.
Qed.

(** A mock client leaves no datagram to complete. *)
Lemma no_completions (events : list (datagram * outcome)) (rest ds : list datagram)
    (l : list datagram) :
  l = l ++ ds -> Permutation (map fst events ++ rest) ds -> events = [].
Proof.
  intros Hl Hp. rewrite <- (app_nil_r l) in Hl at 1.
  apply app_inv_head in Hl. subst ds.
  apply Permutation_nil_r in Hp. apply app_eq_nil in Hp. destruct Hp as [Hp _].
  destruct events; [reflexivity | discriminate Hp].
Qed.

(** C4. [sendAll] on an array of names, with a function [f] as callback.
    Let the datagrams [ds] of the call complete in any order and with any
    outcomes, each at most once ([events] lists the completions in the order in
    which they arrive). Then [f] is called at most once in all. And when the
    first completion that carries an error carries [e], with only successes
    before it, [f] is called exactly once, as [f(e)]: the completions that come
    after it, errors or successes, call nothing. *)
Theorem sendAll_calls_back_at_most_once (c : Client) (items : list jsval)
    (value type sampleRate tags callback : jsval) (f : nat) (w : world)
    (ds rest : list datagram) (events : list (datagram * outcome)) :
  (shift_arguments sampleRate tags callback).2 = VFun f ->
  socket (sendAll c (VArr items) value type sampleRate tags callback w) =
    socket w ++ ds ->
  Permutation (map fst events ++ rest) ds ->
  (exists calls,
      trace (deliver events
               (sendAll c (VArr items) value type sampleRate tags callback w)) =
        trace w ++ calls
      /\ length calls <= 1)
  /\ (forall pre d e post,
        events = pre ++ (d, Failed e) :: post ->
        Forall (fun ev => exists n, snd ev = Sent n) pre ->
        trace (deliver events
                 (sendAll c (VArr items) value type sampleRate tags callback w)) =
          trace w ++ [failure_call f e]).
Proof.
  intros Hcb Hsock Hperm.
  destruct (shift_arguments sampleRate tags callback) as [[s t] cb] eqn:Hshift.
  simpl in Hcb. subst cb.
  destruct (mock c) eqn:Hm.
  - rewrite (sendAll_mock _ _ _ _ _ _ _ _ _ _ _ Hshift Hm) in *.
    unfold skip_draws in Hsock. cbn [socket] in Hsock.
    destruct (settle_all_frame (length (batches w))
                (repeat (Sent 0) (sent_count s w (length items)))
                (snd (new_batch (waiting (VFun f) items 0 0) w))) as [Hso _].
    rewrite Hso in Hsock. simpl in Hsock.
    rewrite (no_completions events rest ds (socket w) Hsock Hperm).
    split.
    + apply (settle_at_most_once _ f items _ 0 0%Z
               (snd (new_batch (waiting (VFun f) items 0 0) w))
               (new_batch_lookup _ w)).
      rewrite repeat_length. simpl. apply sent_count_bound.
    + intros pre d e post H. destruct pre; discriminate H.
  - destruct (sendAll_transmits c items value type sampleRate tags callback w
                s t (VFun f) Hshift Hm) as (Hb & Ht & ds' & Hso & Hf & Hl).
    rewrite Hso in Hsock. apply app_inv_head in Hsock. subst ds'.
    destruct (completions_of
                (fun d => dcallback d = OnSend (length (batches w)))
                events rest ds Hperm Hf) as [Hn Hev].
    pose proof (sent_count_bound s w (length items)) as Hle.
    rewrite (deliver_settle _ _ _ Hev), <- Ht.
    split.
    + apply (settle_at_most_once _ f items _ 0 0%Z _ Hb).
      rewrite length_map. simpl. lia.
    + intros pre d e post -> Hpre.
      destruct (all_sent_outcomes pre Hpre) as [bs Hbs].
      rewrite map_app, Hbs. simpl.
      apply (settle_first_error _ f items bs e (map snd post) 0 0%Z _ Hb).
      assert (length bs = length pre).
      { rewrite <- (length_map Sent bs), <- Hbs, length_map. reflexivity. }
      rewrite length_app in Hn. simpl in Hn. lia.
Qed.

(** *** Names dropped by sampling *)

Lemma call_value_batches v e n w : batches (call_value v e n w) = batches w.
Proof. destruct v; reflexivity. Qed.

(** Every completion is counted, whatever else it does. *)
Lemma onSend_counts k b err n w :
  batches w !! k = Some b ->
  exists b', batches (onSend k err n w) !! k = Some b'
    /\ completed b' = completed b + 1 /\ stat b' = stat b.
Proof.
  intros Hb. pose proof (lookup_lt_Some _ _ _ Hb) as Hk.
  unfold onSend. rewrite Hb. simpl.
  destruct (calledback b || negb (is_function (callback b))).
  { eexists. split; [apply lookup_set_batch; exact Hk|]. split; reflexivity. }
  destruct err as [e|].
  { eexists. split; [|split].
    - rewrite call_value_batches. apply lookup_set_batch. exact Hk.
    - reflexivity.
    - reflexivity. }
  destruct (Nat.eqb (completed b + 1) (length (stat b))).
  - eexists. split; [|split].
    + rewrite call_value_batches. apply lookup_set_batch. exact Hk.
    + reflexivity.
    + reflexivity.
  - eexists. split; [apply lookup_set_batch; exact Hk|]. split; reflexivity.
Qed.

Lemma settle_all_counts k os : forall b w,
  batches w !! k = Some b ->
  exists b', batches (settle_all k os w) !! k = Some b'
    /\ completed b' = completed b + length os /\ stat b' = stat b.
Proof.
  induction os as [|o os IH]; intros b w Hb.
  - exists b. simpl. rewrite Nat.add_0_r. repeat split. exact Hb.
  - change (settle_all k (o :: os) w) with (settle_all k os (settle k o w)).
    assert (H1 : exists b1, batches (settle k o w) !! k = Some b1
                   /\ completed b1 = completed b + 1 /\ stat b1 = stat b).
    { destruct o; simpl; apply onSend_counts; exact Hb. }
    destruct H1 as (b1 & Hb1 & Hc1 & Hs1).
    destruct (IH b1 _ Hb1) as (b' & Hb' & Hc' & Hs').
    exists b'. split; [exact Hb'|]. simpl. split; [clear IH; lia | congruence].
Qed.

(** Fewer completions than names: the count stays below the number of names
    and the callback, whatever it is, gets no success; it is not called at all
    when every completion is a success. *)
Lemma settle_short k cb items os w :
  batches w !! k = Some (waiting cb items 0 0) ->
  length os < length items ->
  (exists b, batches (settle_all k os w) !! k = Some b
     /\ completed b < length (stat b) /\ stat b = items)
  /\ (exists calls, trace (settle_all k os w) = trace w ++ calls
        /\ Forall (fun i => arg_error i <> None) calls)
  /\ ((exists bs, os = map Sent bs) -> trace (settle_all k os w) = trace w).
Proof.
  intros Hb Hn. split; [|].
  { destruct (settle_all_counts k os _ w Hb) as (b & Hb1 & Hc & Hs).
    exists b. split; [exact Hb1|]. rewrite Hs, Hc. simpl.
    split; [lia | reflexivity]. }
  destruct (is_function cb) eqn:Hcb.
  - destruct cb as [| | | | | |f]; try discriminate Hcb.
    assert (Hsent : forall bs, os = map Sent bs -> trace (settle_all k os w) = trace w).
    { intros bs ->. rewrite length_map in Hn.
      apply (settle_sent_short k f items bs 0 0%Z w Hb). simpl. exact Hn. }
    split; [|intros [bs Hbs]; exact (Hsent bs Hbs)].
    destruct (outcomes_first_error os) as [(bs & Hos)|(bs & e & post & ->)].
    + exists []. rewrite app_nil_r. split; [exact (Hsent bs Hos) | constructor].
    + exists [failure_call f e]. split.
      * apply (settle_first_error k f items bs e post 0 0%Z w Hb).
        rewrite length_app, length_map in Hn. simpl in *. lia.
      * constructor; [discriminate | constructor].
  - assert (Hq : trace (settle_all k os w) = trace w).
    { apply (settle_no_function k os _ w Hb). exact Hcb. }
    split; [|intros _; exact Hq].
    exists []. rewrite app_nil_r. split; [exact Hq | constructor].
Qed.

(** A sample rate that is a number stays in its slot. *)
Lemma shift_arguments_rate (r : float) (tags callback : jsval) :
  exists t cb, shift_arguments (VNum r) tags callback = (VNum r, t, cb).
Proof.
  unfold shift_arguments. simpl. rewrite andb_false_r.
  destruct (truthy tags && negb (is_array tags)); eexists; eexists; reflexivity.
Qed.

(** C10, as the code has it. [sendAll] on an array of names with a sample
    rate [r] that is provided and below 1, where the draw of the name number
    [i] is at least [r], so that this name is dropped and never reaches
    [onSend]. A completion that carries an error still calls the callback, with
    that error; what the dropped name rules out is the success. Let the
    datagrams [ds] of the call complete in any order, each at most once. Then
    the variable [completed] of the call stays below [stat.length], the
    callback is never called with a success, and when every completion is a
    success it is not called at all. *)
Theorem sendAll_sampled_out_never_calls_back (c : Client) (items : list jsval)
    (value type : jsval) (r : float) (tags callback : jsval) (w : world)
    (i : nat) (ds rest : list datagram) (events : list (datagram * outcome)) :
  truthy (VNum r) = true -> PrimFloat.ltb r 1 = true ->
  i < length items ->
  PrimFloat.leb r (entropy w (draws w + i)) = true ->
  socket (sendAll c (VArr items) value type (VNum r) tags callback w) =
    socket w ++ ds ->
  Permutation (map fst events ++ rest) ds ->
  let w' :=
    deliver events (sendAll c (VArr items) value type (VNum r) tags callback w) in
  (exists b, batches w' !! length (batches w) = Some b
     /\ completed b < length (stat b) /\ stat b = items)
  /\ (exists calls, trace w' = trace w ++ calls
        /\ Forall (fun call => arg_error call <> None) calls)
  /\ (Forall (fun ev => exists n, snd ev = Sent n) events -> trace w' = trace w).
Proof.
  intros Hr Hlt Hi Hge Hsock Hperm.
  destruct (shift_arguments_rate r tags callback) as (t & cb & Hshift).
  assert (Hcount : sent_count (VNum r) w (length items) < length items).
  { unfold sent_count, sampled. rewrite Hr. unfold js_lt. simpl. rewrite Hlt.
    apply (passing_dropped (VNum r) (entropy w) (length items) (draws w) i Hi).
    apply leb_not_ltb. exact Hge. }
  destruct (mock c) eqn:Hm; simpl.
  - rewrite (sendAll_mock _ _ _ _ _ _ _ _ _ _ _ Hshift Hm) in *.
    unfold skip_draws in Hsock. cbn [socket] in Hsock.
    destruct (settle_all_frame (length (batches w))
                (repeat (Sent 0) (sent_count (VNum r) w (length items)))
                (snd (new_batch (waiting cb items 0 0) w))) as [Hso _].
    rewrite Hso in Hsock. simpl in Hsock.
    rewrite (no_completions events rest ds (socket w) Hsock Hperm).
    destruct (settle_short (length (batches w)) cb items
                (repeat (Sent 0) (sent_count (VNum r) w (length items)))
                (snd (new_batch (waiting cb items 0 0) w))
                (new_batch_lookup _ w)) as (H1 & H2 & H3).
    { rewrite repeat_length. exact Hcount. }
    split; [exact H1|]. split; [exact H2|]. intros _. apply H3.
    exists (repeat 0%Z (sent_count (VNum r) w (length items))).
    symmetry. apply map_repeat.
  - destruct (sendAll_transmits c items value type (VNum r) tags callback w
                (VNum r) t cb Hshift Hm) as (Hb & Ht & ds' & Hso & Hf & Hl).
    rewrite Hso in Hsock. apply app_inv_head in Hsock. subst ds'.
    destruct (completions_of
                (fun d => dcallback d = OnSend (length (batches w)))
                events rest ds Hperm Hf) as [Hn Hev].
    rewrite (deliver_settle _ _ _ Hev), <- Ht.
    destruct (settle_short (length (batches w)) cb items (map snd events) _ Hb)
      as (H1 & H2 & H3).
    { rewrite length_map. lia. }
    split; [exact H1|]. split; [exact H2|].
    intros Hall. apply H3. apply all_sent_outcomes. exact Hall.
Qed.
End Aggregate.

(** ** Mock clients *)

Lemma total_bytes_zeros (n : nat) : total_bytes (repeat 0%Z n) = 0%Z.
Proof. induction n as [|n IH]; simpl; [reflexivity | rewrite IH; reflexivity]. Qed.

Lemma call_value_skip_draws v e n d w :
  call_value v e n (skip_draws d w) = skip_draws d (call_value v e n w).
Proof. destruct v; reflexivity. Qed.

Section Mock.
Context {rt : Runtime}.

(** [send] on a mock client, with a value of the caller as callback: the
    draw, if there is one, and the call [callback(null, 0)] unless the draw
    drops the stat. *)
Lemma mock_send c stat value type sampleRate tags cb w :
  mock c = true ->
  send c stat value type sampleRate tags (Direct cb) w =
  skip_draws (drawn_count sampleRate 1)
    (if Nat.eqb (sent_count sampleRate w 1) 1
     then call_value cb None (Some 0%Z) w else w).
Proof.
  intros Hm. unfold send, sent_count, drawn_count.
  fold (sampled sampleRate). destruct (sampled sampleRate); simpl.
  - fold (let_through sampleRate (entropy w (draws w))).
    destruct (let_through sampleRate (entropy w (draws w))); simpl; [|reflexivity].
    rewrite Hm. simpl.
    change ({| entropy := entropy w; draws := S (draws w); socket := socket w;
               batches := batches w; trace := trace w |})
      with (skip_draws 1 w).
    destruct (is_function cb) eqn:Hf.
    + apply call_value_skip_draws.
    + destruct cb; try reflexivity. discriminate Hf.
  - rewrite Hm. simpl. rewrite skip_draws_none.
    destruct (is_function cb) eqn:Hf; [reflexivity|].
    destruct cb; try reflexivity. discriminate Hf.
Qed.

Lemma call_value_trace v n w :
  socket (call_value v None (Some n) w) = socket w
  /\ exists calls, trace (call_value v None (Some n) w) = trace w ++ calls
       /\ Forall (fun call => arg_error call = None /\ arg_bytes call = Some n) calls
       /\ forall f, v = VFun f -> calls = [success_call f n].
Proof.
  destruct v; simpl; (split; [reflexivity|]);
    try (exists []; rewrite app_nil_r; repeat split; [constructor | discriminate]).
  eexists. split; [reflexivity|]. split.
  - constructor; [split; reflexivity | constructor].
  - intros f' [= <-]. reflexivity.
Qed.

(** The calls a mock fan-out makes: none, or one with [(null, 0)]. *)
Lemma mock_fanout_calls k cb items m w :
  batches w !! k = Some (waiting cb items 0 0) ->
  m <= length items ->
  exists calls, trace (settle_all k (repeat (Sent 0) m) w) = trace w ++ calls
    /\ Forall (fun call => arg_error call = None /\ arg_bytes call = Some 0%Z) calls
    /\ forall f, cb = VFun f -> m <> 0 -> m = length items ->
         calls = [success_call f 0].
Proof.
  intros Hb Hm. rewrite <- map_repeat.
  destruct (is_function cb) eqn:Hcb.
  - destruct cb as [| | | | | |f]; try discriminate Hcb.
    destruct (decide (m <> 0 /\ m = length items)) as [[H0 Hn]|Hno].
    + exists [success_call f 0]. split; [|split].
      * rewrite (settle_sent_exact k f items (repeat 0%Z m) 0 0%Z w Hb).
        -- rewrite total_bytes_zeros. reflexivity.
        -- destruct m; [contradiction | discriminate].
        -- rewrite repeat_length. simpl. exact Hn.
      * constructor; [split; reflexivity | constructor].
      * intros f' [= <-] _ _. reflexivity.
    + destruct (decide (m = 0)) as [->|H0].
      * exists []. rewrite app_nil_r. repeat split; [constructor|].
        intros f' _ H _. contradiction.
      * exists []. rewrite app_nil_r. split; [|split; [constructor|]].
        -- apply (settle_sent_short k f items (repeat 0%Z m) 0 0%Z w Hb).
           rewrite repeat_length. simpl. lia.
        -- intros f' _ H1 H2. exfalso. apply Hno. split; assumption.
  - exists []. rewrite app_nil_r. split; [|split; [constructor|]].
    + apply (settle_no_function k _ _ w Hb). exact Hcb.
    + intros f ->. discriminate Hcb.
Qed.

(** C6, as the code has it. On a mock client no operation hands anything
    to the socket: neither [sendAll], which every typed operation is, whatever
    its arguments, nor [send]. Every call it makes to a function of the caller
    is a call [(null, 0)], so no error reaches the caller. And when a function
    [f] is supplied as callback, [stat] is a name or a non-empty array of names
    and no name is dropped by sampling, [f] is called exactly once, as
    [f(null, 0)]. *)
Theorem mock_never_transmits (c : Client)
    (stat value type sampleRate tags callback : jsval) (w : world) :
  mock c = true ->
  let w' := sendAll c stat value type sampleRate tags callback w in
  let s := (shift_arguments sampleRate tags callback).1.1 in
  let cb := (shift_arguments sampleRate tags callback).2 in
  socket w' = socket w
  /\ socket (send c stat value type sampleRate tags (Direct callback) w) = socket w
  /\ (exists calls,
        trace (send c stat value type sampleRate tags (Direct callback) w) =
          trace w ++ calls
        /\ Forall (fun call => arg_error call = None /\ arg_bytes call = Some 0%Z)
             calls)
  /\ (exists calls, trace w' = trace w ++ calls
        /\ Forall (fun call => arg_error call = None /\ arg_bytes call = Some 0%Z)
             calls
        /\ forall f, cb = VFun f -> names stat <> 0 ->
             sent_count s w (names stat) = names stat ->
             calls = [success_call f 0]).
Proof.
  intros Hm. cbv zeta.
  destruct (shift_arguments sampleRate tags callback) as [[s t] cb] eqn:Hshift.
  cbn [fst snd].
  assert (Hsingle :
    forall v,
      socket (send c v value type s t (Direct cb) w) = socket w
      /\ exists calls,
           trace (send c v value type s t (Direct cb) w) = trace w ++ calls
           /\ Forall (fun call => arg_error call = None /\ arg_bytes call = Some 0%Z)
                calls
           /\ forall f, cb = VFun f -> 1 <> 0 -> sent_count s w 1 = 1 ->
                calls = [success_call f 0]).
  { intros v. rewrite (mock_send c v value type s t cb w Hm).
    unfold skip_draws. cbn [socket trace].
    destruct (Nat.eqb_spec (sent_count s w 1) 1) as [E|E].
    - destruct (call_value_trace cb 0%Z w) as (Hso & calls & Ht & Hf & Hc).
      split; [exact Hso|]. exists calls. split; [exact Ht|]. split; [exact Hf|].
      intros f Hcb _ _. exact (Hc f Hcb).
    - split; [reflexivity|]. exists []. rewrite app_nil_r.
      split; [reflexivity|]. split; [constructor|]. intros f _ _ H. contradiction. }
  split; [|split; [|split]].
  - rewrite sendAll_shifted, Hshift. destruct stat; try apply Hsingle.
    rewrite (send_each_mock c _ value type s t items _ Hm).
    unfold skip_draws. cbn [socket].
    rewrite (proj1 (settle_all_frame _ _ _)). reflexivity.
  - rewrite (mock_send c stat value type sampleRate tags callback w Hm).
    unfold skip_draws. cbn [socket].
    destruct (Nat.eqb (sent_count sampleRate w 1) 1); [|reflexivity].
    apply call_value_trace.
  - rewrite (mock_send c stat value type sampleRate tags callback w Hm).
    unfold skip_draws. cbn [trace].
    destruct (Nat.eqb (sent_count sampleRate w 1) 1).
    + destruct (call_value_trace callback 0%Z w) as (_ & calls & Ht & Hf & _).
      exists calls. split; [exact Ht | exact Hf].
    + exists []. rewrite app_nil_r. split; [reflexivity | constructor].
  - destruct stat as [| | | | |items|];
      try (rewrite sendAll_shifted, Hshift; apply Hsingle).
    rewrite (sendAll_mock c items value type sampleRate tags callback w s t cb
               Hshift Hm).
    unfold skip_draws. cbn [trace names].
    destruct (mock_fanout_calls (length (batches w)) cb items
                (sent_count s w (length items))
                (snd (new_batch (waiting cb items 0 0) w))
                (new_batch_lookup _ w) (sent_count_bound s w (length items)))
      as (calls & Ht & Hf & Hc).
    exists calls. split; [exact Ht|]. split; [exact Hf|].
    intros f Hcb Hn Hall. apply (Hc f Hcb); [rewrite Hall; exact Hn | exact Hall].
Qed.
End Mock.

(** ** Further properties of [send] and [sendAll] *)

Lemma string_append_assoc (x y z : string) : (x +:+ y) +:+ z = x +:+ y +:+ z.
Proof.
  induction x as [|a x IH]; [reflexivity|].
  change (String a ((x +:+ y) +:+ z) = String a (x +:+ y +:+ z)).
  rewrite IH. reflexivity.
Qed.

Lemma onSend_other k k' err n w :
  k <> k' -> batches (onSend k err n w) !! k' = batches w !! k'.
Proof.
  intros Hk. unfold onSend. destruct (batches w !! k) as [b|]; [|reflexivity].
  simpl. destruct (calledback b || negb (is_function (callback b))).
  { simpl. apply list_lookup_insert_ne. exact Hk. }
  destruct err.
  { rewrite call_value_batches. simpl. apply list_lookup_insert_ne. exact Hk. }
  destruct (Nat.eqb (completed b + 1) (length (stat b))).
  - rewrite call_value_batches. simpl. apply list_lookup_insert_ne. exact Hk.
  - simpl. apply list_lookup_insert_ne. exact Hk.
Qed.

Lemma settle_all_other k k' os : forall w,
  k <> k' -> batches (settle_all k os w) !! k' = batches w !! k'.
Proof.
  induction os as [|o os IH]; intros w Hk; [reflexivity|].
  change (settle_all k (o :: os) w) with (settle_all k os (settle k o w)).
  rewrite (IH _ Hk). destruct o; simpl; apply onSend_other; exact Hk.
Qed.

Section More.
Context {rt : Runtime}.

(** One call of [send] hands the socket nothing or one datagram. *)
Lemma send_appends c stat value type sampleRate tags cb w :
  exists ds, socket (send c stat value type sampleRate tags cb w) = socket w ++ ds
    /\ length ds <= 1 /\ Forall (addressed c) ds
    /\ Forall (fun d => dcallback d = cb) ds.
Proof.
  assert (Hnone : forall w', socket w' = socket w ->
            exists ds, socket w' = socket w ++ ds /\ length ds <= 1
              /\ Forall (addressed c) ds /\ Forall (fun d => dcallback d = cb) ds).
  { intros w' H. exists []. rewrite app_nil_r. repeat split; auto. }
  assert (Hcall : forall w', socket (invoke cb None 0 w') = socket w').
  { intros w'. destruct cb as [v|k]; simpl; [destruct v; reflexivity|].
    apply onSend_socket. }
  assert (Hone : forall m w', socket w' = socket w ->
            exists ds, socket (socket_send (datagram_of c m cb) w') = socket w ++ ds
              /\ length ds <= 1 /\ Forall (addressed c) ds
              /\ Forall (fun d => dcallback d = cb) ds).
  { intros m w' H. exists [datagram_of c m cb]. simpl. rewrite H.
    repeat split; auto. repeat constructor. }
  unfold send. destruct (truthy sampleRate && js_lt sampleRate (VNum 1)); simpl.
  - destruct (js_lt (VNum (entropy w (draws w))) sampleRate); [|apply Hnone; reflexivity].
    destruct (mock c); simpl.
    + destruct (handler_is_function cb); apply Hnone; [rewrite Hcall|]; reflexivity.
    + apply (Hone _ (snd (random w))). reflexivity.
  - destruct (mock c); simpl.
    + destruct (handler_is_function cb); apply Hnone; [rewrite Hcall|]; reflexivity.
    + apply (Hone _ w). reflexivity.
Qed.

Lemma send_each_appends c k value type sampleRate tags items : forall w,
  exists ds,
    socket (send_each c k value type sampleRate tags items w) = socket w ++ ds
    /\ length ds <= length items /\ Forall (addressed c) ds
    /\ Forall (fun d => dcallback d = OnSend k) ds.
Proof.
  induction items as [|item items IH]; intros w.
  - exists []. simpl. rewrite app_nil_r. repeat split; auto.
  - change (send_each c k value type sampleRate tags (item :: items) w)
      with (send_each c k value type sampleRate tags items
              (send c item value type sampleRate tags (OnSend k) w)).
    destruct (send_appends c item value type sampleRate tags (OnSend k) w)
      as (ds1 & H1 & L1 & A1 & C1).
    destruct (IH (send c item value type sampleRate tags (OnSend k) w))
      as (ds2 & H2 & L2 & A2 & C2).
    exists (ds1 ++ ds2). rewrite H2, H1, <- app_assoc. split; [reflexivity|].
    split; [rewrite length_app; simpl; clear IH; lia|].
    split; apply Forall_app; split; assumption.
Qed.

Lemma sendAll_appends (c : Client)
    (stat value type sampleRate tags callback : jsval) (w : world) :
  exists ds,
    socket (sendAll c stat value type sampleRate tags callback w) = socket w ++ ds
    /\ length ds <= names stat
    /\ Forall (addressed c) ds.
Proof.
  rewrite sendAll_shifted.
  destruct (shift_arguments sampleRate tags callback) as [[s t] cb].
  assert (Hsingle : forall v, names v = 1 ->
            exists ds, socket (send c v value type s t (Direct cb) w) = socket w ++ ds
              /\ length ds <= names v /\ Forall (addressed c) ds).
  { intros v Hv. rewrite Hv.
    destruct (send_appends c v value type s t (Direct cb) w) as (ds & H & L & A & _).
    exists ds. auto. }
  destruct stat; try (apply Hsingle; reflexivity).
  destruct (send_each_appends c (length (batches w)) value type s t items
              (snd (new_batch {| completed := 0; calledback := false;
                                 sentBytes := 0; callback := cb;
                                 stat := items |} w)))
    as (ds & H & L & A & _).
  exists ds. auto.
Qed.

(** X1. Whatever its arguments, [sendAll] only adds to what the
    socket was handed: at most one datagram for each name, each one from
    offset 0 over the whole buffer, to the port and the host of the client. *)
Theorem sendAll_datagrams_addressed (c : Client)
    (stat value type sampleRate tags callback : jsval) (w : world) :
  exists ds,
    socket (sendAll c stat value type sampleRate tags callback w) = socket w ++ ds
    /\ length ds <= names stat
    /\ Forall
         (fun d => offset d = 0 /\ len d = String.length (buf d)
                   /\ dport d = port c /\ dhost d = host c) ds.
Proof. apply sendAll_appends. Qed.

(** X2. An unsampled [sendAll] on an array of names, on a client that
    transmits, hands the socket one datagram for each name, in the order of
    the array; each holds the line of its name with the tags, and carries the
    [onSend] of the call. *)
Theorem sendAll_fanout_in_order (c : Client) (items : list jsval)
    (value type sampleRate tags callback : jsval) (w : world) :
  mock c = false ->
  sampled (shift_arguments sampleRate tags callback).1.1 = false ->
  let t := (shift_arguments sampleRate tags callback).1.2 in
  let w' := sendAll c (VArr items) value type sampleRate tags callback w in
  socket w' =
    socket w ++
    map (fun item =>
           datagram_of c (with_tags (base_line c item value type) t)
             (OnSend (length (batches w)))) items
  /\ trace w' = trace w /\ draws w' = draws w.
Proof.
  intros Hm Hs. cbv zeta. rewrite sendAll_shifted.
  destruct (shift_arguments sampleRate tags callback) as [[s t] cb].
  cbn [fst snd] in *.
  assert (H : forall w1,
    socket (send_each c (length (batches w)) value type s t items w1) =
      socket w1 ++
      map (fun item =>
             datagram_of c (with_tags (base_line c item value type) t)
               (OnSend (length (batches w)))) items
    /\ trace (send_each c (length (batches w)) value type s t items w1) = trace w1
    /\ draws (send_each c (length (batches w)) value type s t items w1) = draws w1).
  { generalize (length (batches w)). intros k.
    induction items as [|item items IH]; intros w1.
    - simpl. rewrite app_nil_r. repeat split.
    - change (send_each c k value type s t (item :: items) w1)
        with (send_each c k value type s t items
                (send c item value type s t (OnSend k) w1)).
      destruct (IH (send c item value type s t (OnSend k) w1)) as (H1 & H2 & H3).
      rewrite H1, H2, H3.
      rewrite (send_unsampled c item value type s t (OnSend k) w1 Hs Hm).
      simpl. rewrite <- app_assoc. repeat split. }
  destruct (H (snd (new_batch {| completed := 0; calledback := false;
                                 sentBytes := 0; callback := cb;
                                 stat := items |} w))) as (H1 & H2 & H3).
  rewrite H1, H2, H3. repeat split.
Qed.

(** One call of [send] draws a number when it is sampled, and only then. *)
Lemma send_draws c stat value type sampleRate tags cb w :
  draws (send c stat value type sampleRate tags cb w) =
    drawn_count sampleRate 1 + draws w
  /\ entropy (send c stat value type sampleRate tags cb w) = entropy w.
Proof.
  assert (Hcall : forall w', draws (invoke cb None 0 w') = draws w'
                             /\ entropy (invoke cb None 0 w') = entropy w').
  { intros w'. destruct cb as [v|k]; simpl; [destruct v; split; reflexivity|].
    apply onSend_draws. }
  unfold send, drawn_count. fold (sampled sampleRate).
  destruct (sampled sampleRate); simpl.
  - destruct (js_lt (VNum (entropy w (draws w))) sampleRate); [|split; reflexivity].
    destruct (mock c); simpl; [|split; reflexivity].
    destruct (handler_is_function cb); [|split; reflexivity].
    rewrite (proj1 (Hcall _)), (proj2 (Hcall _)). split; reflexivity.
  - destruct (mock c); simpl; [|split; reflexivity].
    destruct (handler_is_function cb); [|split; reflexivity].
    rewrite (proj1 (Hcall _)), (proj2 (Hcall _)). split; reflexivity.
Qed.

Lemma send_each_draws c k value type sampleRate tags items : forall w,
  draws (send_each c k value type sampleRate tags items w) =
    drawn_count sampleRate (length items) + draws w
  /\ entropy (send_each c k value type sampleRate tags items w) = entropy w.
Proof.
  induction items as [|item items IH]; intros w.
  - unfold drawn_count. simpl. destruct (sampled sampleRate); split; reflexivity.
  - change (send_each c k value type sampleRate tags (item :: items) w)
      with (send_each c k value type sampleRate tags items
              (send c item value type sampleRate tags (OnSend k) w)).
    destruct (IH (send c item value type sampleRate tags (OnSend k) w)) as [-> ->].
    destruct (send_draws c item value type sampleRate tags (OnSend k) w) as [-> ->].
    split; [|reflexivity].
    unfold drawn_count. simpl. destruct (sampled sampleRate); clear IH; lia.
Qed.

(** X3. [sendAll] calls [Math.random()] once for each name when the
    sample rate that comes out of the shifts is sampled (truthy and below 1),
    and never otherwise; this holds on every client, mock or not. *)
Theorem sendAll_draws (c : Client)
    (stat value type sampleRate tags callback : jsval) (w : world) :
  let s := (shift_arguments sampleRate tags callback).1.1 in
  draws (sendAll c stat value type sampleRate tags callback w) =
    (if sampled s then names stat else 0) + draws w
  /\ entropy (sendAll c stat value type sampleRate tags callback w) = entropy w.
Proof.
  cbv zeta. rewrite sendAll_shifted.
  destruct (shift_arguments sampleRate tags callback) as [[s t] cb].
  cbn [fst snd].
  destruct stat;
    try (destruct (send_draws c VUndefined value type s t (Direct cb) w);
         apply send_draws).
  destruct (send_each_draws c (length (batches w)) value type s t items
              (snd (new_batch {| completed := 0; calledback := false;
                                 sentBytes := 0; callback := cb;
                                 stat := items |} w))) as [-> ->].
  split; reflexivity.
Qed.

(** X4. On a client that transmits, each typed operation called with a
    name and a value alone hands the socket one datagram; its line is
    [prefix + name + suffix + ":" + value + "|" + code], with the code [ms]
    for [timing], [c] for [increment] and [decrement], [h] for [histogram],
    [g] for [gauge] and [s] for [set] and [unique]. [increment] sends 1 in
    place of a falsy value, and [decrement] sends the opposite of the value,
    or -1 when that opposite is falsy. *)
Theorem typed_operations_lines (c : Client) (name : string) (value : jsval)
    (w : world) :
  mock c = false ->
  let U := VUndefined in
  let sent (v : jsval) (code : string) :=
    socket w ++
    [datagram_of c
       (prefix c +:+ name +:+ suffix c +:+ ":" +:+ to_string v +:+ "|" +:+ code)
       (Direct VUndefined)] in
  socket (timing c (VStr name) value U U U w) = sent value "ms"
  /\ socket (increment c (VStr name) value U U U w) =
       sent (if truthy value then value else VNum 1) "c"
  /\ socket (decrement c (VStr name) value U U U w) =
       sent (if truthy (js_neg value) then js_neg value else VNum (-1)) "c"
  /\ socket (histogram c (VStr name) value U U U w) = sent value "h"
  /\ socket (gauge c (VStr name) value U U U w) = sent value "g"
  /\ socket (set c (VStr name) value U U U w) = sent value "s"
  /\ socket (unique c (VStr name) value U U U w) = sent value "s".
Proof.
  intros Hm. cbv zeta.
  assert (H : forall v code,
    socket (sendAll c (VStr name) v (VStr code) VUndefined VUndefined VUndefined w) =
    socket w ++
    [datagram_of c
       (prefix c +:+ name +:+ suffix c +:+ ":" +:+ to_string v +:+ "|" +:+ code)
       (Direct VUndefined)]).
  { intros v code. rewrite sendAll_shifted. simpl.
    rewrite send_unsampled by (reflexivity || exact Hm). reflexivity. }
  unfold timing, increment, decrement, histogram, gauge, unique, set, js_or.
  rewrite !H. repeat split.
Qed.

(** X5. [sendAll] on a stat that is not an array, unsampled, on a
    client that transmits: the one datagram carries the callback that comes out
    of the shifts. When it is a function [f], the completion of the datagram
    with [n] bytes calls [f(null, n)] and its failure with [e] calls [f(e)];
    when it is not a function, the completion calls nothing. *)
Theorem sendAll_single_name (c : Client)
    (stat value type sampleRate tags callback : jsval) (w : world) :
  mock c = false ->
  is_array stat = false ->
  sampled (shift_arguments sampleRate tags callback).1.1 = false ->
  let t := (shift_arguments sampleRate tags callback).1.2 in
  let cb := (shift_arguments sampleRate tags callback).2 in
  let d := datagram_of c (with_tags (base_line c stat value type) t) (Direct cb) in
  let w' := sendAll c stat value type sampleRate tags callback w in
  w' = socket_send d w
  /\ (forall f n e, cb = VFun f ->
        trace (complete d (Sent n) w') = trace w ++ [success_call f n]
        /\ trace (complete d (Failed e) w') = trace w ++ [failure_call f e])
  /\ (is_function cb = false -> forall o, trace (complete d o w') = trace w).
Proof.
  intros Hm Ha Hs. cbv zeta. rewrite sendAll_shifted.
  destruct (shift_arguments sampleRate tags callback) as [[s t] cb].
  cbn [fst snd] in *.
  assert (E : match stat with
              | VArr items =>
                  send_each c (length (batches w)) value type s t items
                    (snd (new_batch {| completed := 0; calledback := false;
                                       sentBytes := 0; callback := cb;
                                       stat := items |} w))
              | _ => send c stat value type s t (Direct cb) w
              end =
              socket_send
                (datagram_of c (with_tags (base_line c stat value type) t) (Direct cb))
                w).
  { destruct stat; try discriminate Ha; apply send_unsampled; assumption. }
  rewrite E. split; [reflexivity|]. split.
  - intros f n e ->. split; reflexivity.
  - intros Hf o. destruct cb; try discriminate Hf; destruct o; reflexivity.
Qed.

(** X6. [sendAll] on an array of names with no function as callback:
    whatever completions its datagrams get, errors included, nothing is ever
    called. *)
Theorem sendAll_without_callback_is_silent (c : Client) (items : list jsval)
    (value type sampleRate tags callback : jsval) (w : world)
    (ds rest : list datagram) (events : list (datagram * outcome)) :
  is_function (shift_arguments sampleRate tags callback).2 = false ->
  socket (sendAll c (VArr items) value type sampleRate tags callback w) =
    socket w ++ ds ->
  Permutation (map fst events ++ rest) ds ->
  trace (deliver events
           (sendAll c (VArr items) value type sampleRate tags callback w)) =
    trace w.
Proof.
  intros Hcb Hsock Hperm.
  destruct (shift_arguments sampleRate tags callback) as [[s t] cb] eqn:Hshift.
  cbn [snd] in Hcb.
  destruct (mock c) eqn:Hm.
  - rewrite (sendAll_mock _ _ _ _ _ _ _ _ _ _ _ Hshift Hm) in *.
    unfold skip_draws in Hsock. cbn [socket] in Hsock.
    rewrite (proj1 (settle_all_frame _ _ _)) in Hsock. simpl in Hsock.
    rewrite (no_completions events rest ds (socket w) Hsock Hperm).
    apply (settle_no_function (length (batches w)) _ (waiting cb items 0 0)
             (snd (new_batch (waiting cb items 0 0) w)) (new_batch_lookup _ w) Hcb).
  - destruct (sendAll_transmits c items value type sampleRate tags callback w
                s t cb Hshift Hm) as (Hb & Ht & ds' & Hso & Hf & _).
    rewrite Hso in Hsock. apply app_inv_head in Hsock. subst ds'.
    destruct (completions_of
                (fun d => dcallback d = OnSend (length (batches w)))
                events rest ds Hperm Hf) as [_ Hev].
    rewrite (deliver_settle _ _ _ Hev), <- Ht.
    apply (settle_no_function _ _ _ _ Hb Hcb).
Qed.

(** X7. The completions of the datagrams of one [sendAll] call
    change the variables of that call only: the variables of every call made
    before it stay as they were. *)
Theorem sendAll_calls_are_isolated (c : Client) (items : list jsval)
    (value type sampleRate tags callback : jsval) (w : world)
    (ds rest : list datagram) (events : list (datagram * outcome)) (k : nat) :
  k < length (batches w) ->
  socket (sendAll c (VArr items) value type sampleRate tags callback w) =
    socket w ++ ds ->
  Permutation (map fst events ++ rest) ds ->
  batches (deliver events
             (sendAll c (VArr items) value type sampleRate tags callback w)) !! k =
    batches w !! k.
Proof.
  intros Hk Hsock Hperm.
  destruct (shift_arguments sampleRate tags callback) as [[s t] cb] eqn:Hshift.
  assert (Hne : length (batches w) <> k) by lia.
  assert (Hnew : batches (snd (new_batch (waiting cb items 0 0) w)) !! k =
                 batches w !! k).
  { simpl. apply lookup_app_l. exact Hk. }
  destruct (mock c) eqn:Hm.
  - rewrite (sendAll_mock _ _ _ _ _ _ _ _ _ _ _ Hshift Hm) in *.
    unfold skip_draws in Hsock. cbn [socket] in Hsock.
    rewrite (proj1 (settle_all_frame _ _ _)) in Hsock. simpl in Hsock.
    rewrite (no_completions events rest ds (socket w) Hsock Hperm).
    unfold deliver, skip_draws. cbn [fold_left batches].
    rewrite (settle_all_other _ k _ _ Hne). exact Hnew.
  - destruct (sendAll_transmits c items value type sampleRate tags callback w
                s t cb Hshift Hm) as (_ & _ & ds' & Hso & Hf & _).
    rewrite Hso in Hsock. apply app_inv_head in Hsock. subst ds'.
    destruct (completions_of
                (fun d => dcallback d = OnSend (length (batches w)))
                events rest ds Hperm Hf) as [_ Hev].
    rewrite (deliver_settle _ _ _ Hev), (settle_all_other _ k _ _ Hne).
    rewrite sendAll_shifted, Hshift.
    rewrite (proj1 (send_each_transmits c (length (batches w)) value type s t items
                      (snd (new_batch (waiting cb items 0 0) w)) Hm)).
    exact Hnew.
Qed.

(** X8. The tags are joined as they are: a tag that holds a comma gives
    the line that its two halves give as two tags, in every call of [send]. *)
Theorem send_tags_not_escaped (c : Client) (stat value type sampleRate : jsval)
    (a b : string) (more : list jsval) (cb : handler) (w : world) :
  send c stat value type sampleRate (VArr (VStr (a +:+ "," +:+ b) :: more)) cb w =
  send c stat value type sampleRate (VArr (VStr a :: VStr b :: more)) cb w.
Proof.
  assert (H : forall m,
    with_tags m (VArr (VStr (a +:+ "," +:+ b) :: more)) =
    with_tags m (VArr (VStr a :: VStr b :: more))).
  { intros m. rewrite !with_tags_array. do 2 f_equal.
    unfold array_join. destruct more as [|x more]; [reflexivity|].
    change (join "," (map element_string (VStr (a +:+ "," +:+ b) :: x :: more)))
      with ((a +:+ "," +:+ b) +:+ "," +:+ join "," (map element_string (x :: more))).
    change (join "," (map element_string (VStr a :: VStr b :: x :: more)))
      with (a +:+ "," +:+ b +:+ "," +:+ join "," (map element_string (x :: more))).
    rewrite !string_append_assoc. reflexivity. }
  unfold send, random.
  destruct (truthy sampleRate && js_lt sampleRate (VNum 1));
    cbv beta iota zeta;
    [destruct (js_lt (VNum (entropy w (draws w))) sampleRate);
     cbv beta iota zeta|];
    rewrite ?H; reflexivity.
Qed.

(** X9. A truthy value in the sample-rate slot that is neither a number
    nor an array goes through both shifts and ends as the callback; what the
    tags slot and the callback slot hold is dropped, so a function passed
    behind such a value is never called. *)
Theorem sendAll_shifts_twice (c : Client) (stat value type v next last : jsval)
    (w : world) :
  truthy v = true -> is_number v = false -> is_array v = false ->
  shift_arguments v next last = (VUndefined, VUndefined, v)
  /\ sendAll c stat value type v next last w =
     sendAll c stat value type VUndefined VUndefined v w.
Proof.
  intros Hv Hn Ha.
  assert (E1 : shift_arguments v next last = (VUndefined, VUndefined, v)).
  { unfold shift_arguments. rewrite Hv, Hn. cbn [andb negb]. rewrite Hv, Ha.
    reflexivity. }
  destruct v; try discriminate Hv; try discriminate Hn; try discriminate Ha.
  all: split; [exact E1|]; rewrite !sendAll_shifted, E1; simpl shift_arguments;
    try rewrite Hv; reflexivity.
Qed.
End More.

(** ** The constructor *)

Lemma is_true_spec (v : jsval) : is_true v = true <-> v = VBool true.
Proof.
  split; [|intros ->; reflexivity].
  destruct v as [| |[|]| | | |]; try discriminate. reflexivity.
Qed.

(** X10. A positional call [new Client(host, ...)] (a string as host,
    or more than one argument) and the call with one options object whose
    properties are the same values leave the same host, port, prefix and
    suffix in the instance, look up the same name and publish alike. They
    differ on [mock]: the positional form keeps [mock === true], the options
    form keeps the value itself, so that the two instances are in mock mode
    together exactly when the value is [true] or falsy. *)
Theorem constructor_forms_agree (host : jsval) (rest : list jsval) :
  rest <> [] \/ is_string_first (Val host) = true ->
  let given i := nth i rest VUndefined in
  let positional := construct (Args (Val host) rest) in
  let record :=
    construct
      (Args (Opts {| opt_host := host; opt_port := given 0; opt_prefix := given 1;
                     opt_suffix := given 2; opt_globalize := given 3;
                     opt_cacheDns := given 4; opt_mock := given 5 |}) []) in
  this_host (this positional) = this_host (this record)
  /\ this_port (this positional) = this_port (this record)
  /\ this_prefix (this positional) = this_prefix (this record)
  /\ this_suffix (this positional) = this_suffix (this record)
  /\ lookup positional = lookup record
  /\ globalized positional = globalized record
  /\ this_mock (this positional) = VBool (is_true (given 5))
  /\ this_mock (this record) = given 5
  /\ (truthy (this_mock (this positional)) = truthy (this_mock (this record))
      <-> (truthy (given 5) = true -> given 5 = VBool true)).
Proof.
  intros Hpos. cbv zeta.
  assert (E : negb (Nat.eqb (length rest) 0) || is_string_first (Val host) = true).
  { destruct Hpos as [Hr|Hs]; [|rewrite Hs; apply orb_true_r].
    destruct rest; [contradiction | reflexivity]. }
  unfold construct. rewrite E. cbn -[nth truthy js_or is_true].
  repeat (split; [reflexivity|]).
  generalize (nth 5 rest VUndefined). intros m.
  change (truthy (VBool (is_true m))) with (is_true m).
  split.
  - intros H Ht. apply is_true_spec. rewrite H. exact Ht.
  - intros H. destruct (truthy m) eqn:Ht.
    + rewrite (H eq_refl). reflexivity.
    + destruct (is_true m) eqn:Hm; [|reflexivity].
      apply is_true_spec in Hm. subst m. discriminate Ht.
Qed.

(** X11. A single argument that is neither a string nor an options
    object is ignored: [new Client(8125)] builds what [new Client()] builds,
    the client of [localhost:8125] without prefix or suffix, which looks
    nothing up and is not published. *)
Theorem constructor_ignores_lone_value (v : jsval) :
  is_string_first (Val v) = false ->
  construct (Args (Val v) []) = construct NoArgs
  /\ construct NoArgs =
     {| this := {| this_host := Val (VStr "localhost"); this_port := VNum 8125;
                   this_prefix := VStr ""; this_suffix := VStr "";
                   this_mock := VUndefined |};
        lookup := None; globalized := false |}.
Proof.
  intros Hs. split; [|reflexivity].
  unfold construct. simpl length. cbn [Nat.eqb negb orb]. rewrite Hs. reflexivity.
Qed.

(** X12. Whatever the arguments, the instance has a truthy host
    and a truthy port, and its prefix and suffix are truthy or the empty
    string: a falsy host, port, prefix or suffix (an empty host, the port 0)
    is replaced by the default. *)
Theorem constructor_fills_defaults (args : arguments) :
  let i := this (construct args) in
  truthy_first (this_host i) = true
  /\ truthy (this_port i) = true
  /\ (truthy (this_prefix i) = true \/ this_prefix i = VStr "")
  /\ (truthy (this_suffix i) = true \/ this_suffix i = VStr "").
Proof.
  unfold construct. cbv zeta.
  match goal with |- context [set_host ?s] => generalize s; intros o end.
  cbn [this this_host this_port this_prefix this_suffix]. unfold js_or.
  split; [destruct (truthy_first (set_host o)) eqn:E; [exact E | reflexivity]|].
  split; [destruct (truthy (set_port o)) eqn:E; [exact E | reflexivity]|].
  split.
  - destruct (truthy (set_prefix o)) eqn:E; [left; exact E | right; reflexivity].
  - destruct (truthy (set_suffix o)) eqn:E; [left; exact E | right; reflexivity].
Qed.

(** X13. [dns.lookup] is started exactly when [cacheDns] is [true]
    itself, and on the host as it was given: when that host is falsy (absent,
    say), the name looked up is not the [localhost] the instance sends to. *)
Theorem constructor_looks_up_given_host (o : options) :
  let made := construct (Args (Opts o) []) in
  (lookup made <> None <-> opt_cacheDns o = VBool true)
  /\ (opt_cacheDns o = VBool true -> lookup made = Some (Val (opt_host o)))
  /\ (truthy (opt_host o) = true -> this_host (this made) = Val (opt_host o))
  /\ (truthy (opt_host o) = false ->
      this_host (this made) = Val (VStr "localhost")
      /\ this_host (this made) <> Val (opt_host o)).
Proof.
  cbv zeta. unfold construct. cbn -[truthy js_or is_true].
  split; [|split; [|split]].
  - rewrite <- is_true_spec. destruct (is_true (opt_cacheDns o)); split;
      intros H; try reflexivity; try discriminate; try contradiction.
  - intros H. rewrite H. reflexivity.
  - intros H. rewrite H. reflexivity.
  - intros H. rewrite H. split; [reflexivity|].
    intros E. injection E as E. rewrite <- E in H. discriminate H.
Qed.

Section Resolution.
Context {rt : Runtime}.

(** X14. For an instance whose host, prefix and suffix are strings:
    after a resolution without error every datagram of [sendAll] goes to the
    resolved address, the port, prefix, suffix and mock mode being as before;
    after a resolution with an error the client is as before. *)
Theorem resolution_redirects (i : instance) (c : Client) (e : error)
    (address : string) (stat value type sampleRate tags callback : jsval)
    (w : world) :
  client_of i = Some c ->
  let c' := {| host := address; port := port c; prefix := prefix c;
               suffix := suffix c; mock := mock c |} in
  client_of (resolved i None address) = Some c'
  /\ client_of (resolved i (Some e) address) = Some c
  /\ exists ds,
       socket (sendAll c' stat value type sampleRate tags callback w) =
         socket w ++ ds
       /\ Forall (fun d => dhost d = address /\ dport d = port c) ds.
Proof.
  intros Hc. cbv zeta. split; [|split; [exact Hc|]].
  - unfold client_of in *. destruct i as [h p pre suf m]. simpl in *.
    destruct h as [o|[]]; try discriminate Hc.
    destruct pre; try discriminate Hc. destruct suf; try discriminate Hc.
    injection Hc as <-. reflexivity.
  - destruct (sendAll_appends
                {| host := address; port := port c; prefix := prefix c;
                   suffix := suffix c; mock := mock c |}
                stat value type sampleRate tags callback w) as (ds & H & _ & A).
    exists ds. split; [exact H|].
    apply (Forall_impl _ _ _ A). intros d (_ & _ & Hp & Hh). split; assumption.
Qed.
End Resolution.

(** ** The route middleware *)

(** X15. The route of the tags has the length of the path and no colon:
    every colon of the path has become a star, and a path without colon is its
    own route. *)
Theorem route_has_no_colon (path : string) :
  String.length (replace_colons path) = String.length path
  /\ occurs colon (replace_colons path) = false
  /\ (occurs colon path = false -> replace_colons path = path)
  /\ (forall n, String.get n path = Some colon ->
        String.get n (replace_colons path) = Some star).
Proof.
  induction path as [|a path (IH1 & IH2 & IH3 & IH4)]; simpl.
  - repeat split; try reflexivity. intros n H. destruct n; discriminate H.
  - split; [rewrite IH1; reflexivity|]. split; [|split].
    + destruct (Ascii.eqb a colon) eqn:E; simpl; [exact IH2|].
      rewrite E. exact IH2.
    + destruct (Ascii.eqb a colon); simpl; [discriminate|].
      intros H. rewrite (IH3 H). reflexivity.
    + intros [|n] H; simpl in *.
      * injection H as ->. reflexivity.
      * apply IH4. exact H.
Qed.

Section Route.
Context {rt : Runtime} {tm : Timing}.

(** [histogram(name, value, tags)], as the middleware calls it, on a client
    that transmits: the tags come in the slot of the sample rate. *)
Lemma histogram_tagged c (name : string) value (tags : list jsval) w :
  mock c = false ->
  histogram c (VStr name) value (VArr tags) VUndefined VUndefined w =
  socket_send
    (datagram_of c
       (with_tags (base_line c (VStr name) value (VStr "h")) (VArr tags))
       (Direct VUndefined)) w.
Proof.
  intros Hm. unfold histogram. rewrite sendAll_shifted.
  change (shift_arguments (VArr tags) VUndefined VUndefined)
    with (VUndefined, VArr tags, VUndefined).
  cbv beta iota. apply send_unsampled; [reflexivity | exact Hm].
Qed.

Lemma report_parts c (name : string) r parts : forall w,
  mock c = false ->
  fold_left (report_part c (VStr name) r) parts w =
  {| entropy := entropy w; draws := draws w;
     socket := socket w ++ map (part_packet c name r) parts;
     batches := batches w; trace := trace w |}.
Proof.
  induction parts as [|m parts IH]; intros w Hm.
  - simpl. rewrite app_nil_r. destruct w; reflexivity.
  - change (fold_left (report_part c (VStr name) r) (m :: parts) w)
      with (fold_left (report_part c (VStr name) r) parts
              (report_part c (VStr name) r w m)).
    rewrite (IH _ Hm). unfold report_part. rewrite (histogram_tagged _ _ _ _ _ Hm).
    simpl. rewrite <- app_assoc. reflexivity.
Qed.

Lemma headers_parts (c : Client) (name : string)
    (r : tracked) (first : measurement) (parts : list measurement)
    (p : process) :
  mock c = false ->
  measurements r = first :: parts ->
  exists p',
    on_headers c (VStr name) r p = Some p'
    /\ socket (io p') =
         socket (io p) ++ map (part_packet c name r) parts
           ++ [total_packet c name r
                 (toMillis (elapsed (clock p (reads p)) (time first)))]
    /\ trace (io p') = trace (io p)
    /\ draws (io p') = draws (io p)
    /\ reads p' = S (reads p).
Proof.
  intros Hm Hr. unfold on_headers. rewrite Hr. cbn [tail read_clock on_io io clock reads].
  eexists. split; [reflexivity|].
  cbn [tail read_clock on_io io clock reads].
  rewrite (histogram_tagged _ _ _ _ _ Hm), (report_parts _ _ _ _ _ Hm).
  cbn [socket_send socket trace draws]. rewrite <- app_assoc.
  repeat split.
Qed.

(** X16. The listener of [onHeaders], for a string as name, on a
    client that transmits and a request with measurements: it hands the socket
    one datagram for each measurement but the first, in their order, and then
    the datagram of the total, the time elapsed since the first measurement at
    the one clock reading it makes; it calls nothing and draws nothing. *)
Theorem headers_report_parts_then_total (c : Client) (name : string)
    (r : tracked) (first : measurement) (parts : list measurement)
    (p : process) :
  mock c = false ->
  measurements r = first :: parts ->
  exists p',
    on_headers c (VStr name) r p = Some p'
    /\ socket (io p') =
         socket (io p) ++ map (part_packet c name r) parts
           ++ [total_packet c name r
                 (toMillis (elapsed (clock p (reads p)) (time first)))]
    /\ trace (io p') = trace (io p)
    /\ draws (io p') = draws (io p)
    /\ reads p' = S (reads p).
Proof. apply headers_parts. Qed.

(** [req.time] on a request that has a measurement. *)
Lemma req_time_grows k r p :
  measurements r <> [] ->
  exists r' p',
    req_time k r p = Some (r', p')
    /\ route r' = route r
    /\ (exists m, measurements r' = measurements r ++ [m] /\ key m = k)
    /\ reads p' = 2 + reads p /\ io p' = io p /\ clock p' = clock p.
Proof.
  intros Hne. unfold req_time.
  destruct (measurements r) as [|m0 ms] eqn:Hr using rev_ind; [contradiction|].
  rewrite last_snoc. cbn [read_clock]. eexists. eexists.
  split; [reflexivity|]. split; [reflexivity|]. split.
  - eexists. split; reflexivity.
  - repeat split.
Qed.

Lemma times_grow ks : forall r p,
  measurements r <> [] ->
  exists r' p',
    times ks r p = Some (r', p')
    /\ route r' = route r
    /\ (exists ms, measurements r' = measurements r ++ ms /\ map key ms = ks)
    /\ reads p' = 2 * length ks + reads p /\ io p' = io p /\ clock p' = clock p.
Proof.
  induction ks as [|k ks IH]; intros r p Hne.
  - exists r, p. simpl. split; [reflexivity|]. split; [reflexivity|].
    split; [exists []; rewrite app_nil_r; split; reflexivity|]. repeat split.
  - destruct (req_time_grows k r p Hne)
      as (r1 & p1 & E1 & R1 & (m & M1 & K1) & C1 & I1 & L1).
    destruct (IH r1 p1) as (r2 & p2 & E2 & R2 & (ms & M2 & K2) & C2 & I2 & L2).
    { rewrite M1. intros H. apply app_eq_nil in H. destruct H; discriminate. }
    exists r2, p2. simpl. rewrite E1. split; [exact E2|].
    split; [congruence|]. split.
    + exists (m :: ms). rewrite M2, M1, <- app_assoc. simpl.
      split; [reflexivity | congruence].
    + split; [clear IH; simpl in *; lia|]. split; congruence.
Qed.

(** X17. After [measure], any calls of [req.time] succeed: the request
    keeps the first measurement, of key "initial", followed by one measurement
    for each call, in the order of the calls; its route is the path with stars
    for colons; the clock was read once by [measure] and twice by each call, and
    nothing was sent. The listener of [onHeaders] then does not throw. *)
Theorem timed_request_never_throws (path : string) (ks : list jsval)
    (p : process) :
  exists r p',
    times ks (fst (measure path p)) (snd (measure path p)) = Some (r, p')
    /\ route r = replace_colons path
    /\ map key (measurements r) = VStr "initial" :: ks
    /\ reads p' = 1 + 2 * length ks + reads p
    /\ io p' = io p
    /\ forall c name, on_headers c name r p' <> None.
Proof.
  destruct (times_grow ks (fst (measure path p)) (snd (measure path p)))
    as (r & p' & E & R & (ms & M & K) & C & I & _); [discriminate|].
  exists r, p'. split; [exact E|]. split; [exact R|].
  split; [rewrite M, map_app, K; reflexivity|].
  split; [rewrite C; simpl; lia|]. split; [exact I|].
  intros c name. unfold on_headers. rewrite M. simpl. discriminate.
Qed.

(** X18. A request that goes through [measure], is timed under
    the keys [ks] and reaches the listener of [onHeaders], on a client that
    transmits and for a string as name: the socket gets one datagram for each
    key, in the order of the keys, and then the datagram of the total. *)
Theorem middleware_reports_every_part (c : Client) (name path : string)
    (ks : list jsval) (p : process) :
  mock c = false ->
  exists r p1 p2 parts total,
    times ks (fst (measure path p)) (snd (measure path p)) = Some (r, p1)
    /\ on_headers c (VStr name) r p1 = Some p2
    /\ map key parts = ks
    /\ socket (io p2) =
         socket (io p) ++ map (part_packet c name r) parts
           ++ [total_packet c name r total]
    /\ trace (io p2) = trace (io p).
Proof.
  intros Hm.
  destruct (times_grow ks (fst (measure path p)) (snd (measure path p)))
    as (r & p1 & E & R & (ms & M & K) & C & I & _); [discriminate|].
  simpl in M.
  destruct (headers_parts c name r _ ms p1 Hm M) as (p2 & H & S & T & _).
  exists r, p1, p2, ms. eexists. split; [exact E|]. split; [exact H|].
  split; [exact K|]. rewrite S, T, I. split; reflexivity.
Qed.

Lemma req_time_chained k r p s :
  measurements r <> [] ->
  reads p + 1 = s + 2 * length (measurements r) ->
  chained (clock p) s (measurements r) ->
  exists r' p',
    req_time k r p = Some (r', p')
    /\ measurements r' <> []
    /\ reads p' + 1 = s + 2 * length (measurements r')
    /\ clock p' = clock p
    /\ chained (clock p) s (measurements r').
Proof.
  intros Hne Hreads [Htime Hdiff]. unfold req_time.
  destruct (last (measurements r)) as [l|] eqn:Hl.
  2:{ apply last_None in Hl. contradiction. }
  cbn [read_clock reads clock]. eexists. eexists. split; [reflexivity|].
  cbn [measurements reads clock].
  rewrite last_lookup in Hl.
  assert (Hlen : 0 < length (measurements r)).
  { destruct (measurements r); [contradiction | simpl; lia]. }
  split; [intros H; apply app_eq_nil in H; destruct H; discriminate|].
  split; [rewrite length_app; simpl; lia|]. split; [reflexivity|]. split.
  - intros j m Hj. apply lookup_app_Some in Hj. destruct Hj as [Hj|[Hge Hj]].
    + apply Htime. exact Hj.
    + destruct (j - length (measurements r)) as [|?] eqn:E; [|discriminate Hj].
      injection Hj as <-. simpl. f_equal. lia.
  - intros j a b Ha Hb.
    apply lookup_app_Some in Hb. destruct Hb as [Hb|[Hge Hb]].
    + apply (Hdiff j a b); [|exact Hb].
      apply lookup_app_Some in Ha. destruct Ha as [Ha|[Hge _]]; [exact Ha|].
      apply lookup_lt_Some in Hb. lia.
    + destruct (S j - length (measurements r)) as [|?] eqn:E; [|discriminate Hb].
      injection Hb as <-. simpl.
      assert (Hj : j = pred (length (measurements r))) by lia.
      apply lookup_app_Some in Ha. destruct Ha as [Ha|[Hge' _]]; [|lia].
      rewrite Hj in Ha. rewrite Ha in Hl. injection Hl as ->.
      do 4 f_equal. lia.
Qed.

Lemma times_chained ks : forall r p s,
  measurements r <> [] ->
  reads p + 1 = s + 2 * length (measurements r) ->
  chained (clock p) s (measurements r) ->
  exists r' p', times ks r p = Some (r', p') /\ chained (clock p) s (measurements r').
Proof.
  induction ks as [|k ks IH]; intros r p s Hne Hreads Hch.
  - exists r, p. split; [reflexivity | exact Hch].
  - destruct (req_time_chained k r p s Hne Hreads Hch)
      as (r1 & p1 & E1 & N1 & R1 & C1 & H1).
    rewrite <- C1 in H1.
    destruct (IH r1 p1 s N1 R1 H1) as (r2 & p2 & E2 & H2).
    exists r2, p2. simpl. rewrite E1. split; [exact E2|]. rewrite <- C1. exact H2.
Qed.

(** X19. After [measure] and any calls of [req.time], the clock
    being read from call number [s] on: the measurement number [j] holds the
    reading [s + 2j], and the [diff] of every measurement after the first is
    the time elapsed since the measurement before it (not since the start of
    the request), taken at the reading between the two and put through
    [toMillis]. *)
Theorem parts_measure_from_previous (path : string) (ks : list jsval)
    (p : process) :
  exists r p',
    times ks (fst (measure path p)) (snd (measure path p)) = Some (r, p')
    /\ (forall j m, measurements r !! j = Some m ->
          time m = clock p (reads p + 2 * j))
    /\ (forall j a b,
          measurements r !! j = Some a -> measurements r !! S j = Some b ->
          diff b =
            VStr (toMillis (elapsed (clock p (reads p + 2 * j + 1)) (time a)))).
Proof.
  destruct (times_chained ks (fst (measure path p)) (snd (measure path p))
              (reads p)) as (r & p' & E & Ht & Hd).
  - discriminate.
  - simpl. lia.
  - split.
    + intros [|j] m H; [|discriminate H]. injection H as <-. simpl.
      f_equal. lia.
    + intros [|j] a b _ H; discriminate H.
  - exists r, p'. split; [exact E|]. split; [exact Ht | exact Hd].
Qed.
End Route.

(** * The properties at work *)

#[local] Existing Instance ExampleRuntime.runtime.

Lemma send_plain_line_witness :
  mock udp = false
  /\ socket (send udp (VStr "x") (VNum 5) (VStr "c") VUndefined VUndefined
               (Direct (VFun 7)) (fresh second_high)) =
     [packet "app.x.prod:5|c" (Direct (VFun 7))].
Proof.
  split; [reflexivity|].
  exact (proj2 (send_plain_line udp "x" (VNum 5) "c" (Direct (VFun 7))
                  (fresh second_high) eq_refl)).
Defined.

Lemma send_sampling_witness :
  (* the second draw, 0.75, is not below 0.5 *)
  socket (send udp (VStr "x") (VNum 1) (VStr "c") (VNum 0.5) VUndefined
            (Direct (VFun 7)) (skip_draws 1 (fresh second_high))) = []
  /\ trace (send udp (VStr "x") (VNum 1) (VStr "c") (VNum 0.5) VUndefined
              (Direct (VFun 7)) (skip_draws 1 (fresh second_high))) = []
  (* the first draw, 0.25, is below 0.5 *)
  /\ socket (send udp (VStr "x") (VNum 1) (VStr "c") (VNum 0.5) VUndefined
               (Direct (VFun 7)) (fresh second_high)) =
     [packet "app.x.prod:1|c|@0.5" (Direct (VFun 7))]
  (* a rate of 1 *)
  /\ socket (send udp (VStr "x") (VNum 1) (VStr "c") (VNum 1) VUndefined
               (Direct (VFun 7)) (skip_draws 1 (fresh second_high))) =
     [packet "app.x.prod:1|c" (Direct (VFun 7))].
Proof.
  pose proof (send_sampling udp (VStr "x") (VNum 1) (VStr "c") 0.5 VUndefined
                (Direct (VFun 7)) (skip_draws 1 (fresh second_high))) as Hhigh.
  pose proof (send_sampling udp (VStr "x") (VNum 1) (VStr "c") 0.5 VUndefined
                (Direct (VFun 7)) (fresh second_high)) as Hlow.
  cbv zeta in Hhigh, Hlow.
  destruct Hhigh as [Hhigh Hone]. destruct Hlow as [Hlow _].
  destruct (Hhigh eq_refl eq_refl) as [Hdrop _].
  destruct (Hlow eq_refl eq_refl) as [_ Hpass].
  destruct (Hdrop eq_refl) as (Hs & Ht & _).
  split; [exact Hs|]. split; [exact Ht|]. split.
  - rewrite (Hpass eq_refl eq_refl). reflexivity.
  - rewrite (Hone eq_refl). reflexivity.
Defined.

Lemma send_empty_tags_witness :
  socket (send udp (VStr "x") (VNum 1) (VStr "c") VUndefined (VArr [])
            (Direct VUndefined) (fresh second_high)) =
    [packet "app.x.prod:1|c|#" (Direct VUndefined)]
  /\ socket (send udp (VStr "x") (VNum 1) (VStr "c") (VNum 0.5) (VArr [])
               (Direct VUndefined) (fresh second_high)) =
     [packet "app.x.prod:1|c|@0.5|#" (Direct VUndefined)].
Proof.
  destruct (send_empty_tags udp (VStr "x") (VNum 1) (VStr "c") VUndefined
              (Direct VUndefined) (fresh second_high) eq_refl) as (_ & Hplain & _).
  destruct (send_empty_tags udp (VStr "x") (VNum 1) (VStr "c") (VNum 0.5)
              (Direct VUndefined) (fresh second_high) eq_refl) as (_ & _ & Hrate).
  split.
  - rewrite (Hplain eq_refl). reflexivity.
  - rewrite (Hrate eq_refl eq_refl). reflexivity.
Defined.

Lemma sendAll_argument_shifting_witness :
  (* tags and callback, no sample rate *)
  shift_arguments (VArr [VStr "route:/x"]) (VFun 7) VUndefined =
    shift_arguments VUndefined (VArr [VStr "route:/x"]) (VFun 7)
  (* sample rate and callback, no tags *)
  /\ shift_arguments (VNum 0.5) (VFun 7) VUndefined = (VNum 0.5, VUndefined, VFun 7).
Proof.
  destruct sendAll_argument_shifting as (Hrate & Htags & _).
  split.
  - apply Hrate; reflexivity.
  - apply Htags; reflexivity.
Defined.

(** A falsy value in the sample-rate slot, [null] for one, stays there. *)
Example null_rate_stays :
  shift_arguments VNull (VArr [VStr "route:/x"]) (VFun 7) =
    (VNull, VArr [VStr "route:/x"], VFun 7).
Proof. reflexivity. Qed.

(** [increment] without a value counts 1. *)
Example increment_no_value :
  socket (increment udp (VStr "x") VUndefined VUndefined VUndefined VUndefined
            (fresh second_high)) =
    [packet "app.x.prod:1|c" (Direct VUndefined)].
Proof. reflexivity. Qed.

(** The tags of the specification's example. *)
Example tags_joined :
  socket (histogram udp (VStr "x") (VNum 12)
            (VArr [VStr "route:/x"; VStr "part:db"]) VUndefined VUndefined
            (fresh second_high)) =
    [packet "app.x.prod:12|h|#route:/x,part:db" (Direct VUndefined)].
Proof. reflexivity. Qed.

(** [decrement]: with 5, without a value, and with 0. *)
Example decrement_five :
  socket (decrement udp (VStr "x") (VNum 5) VUndefined VUndefined VUndefined
            (fresh second_high)) =
    [packet "app.x.prod:-5|c" (Direct VUndefined)].
Proof. reflexivity. Qed.

Example decrement_no_value :
  socket (decrement udp (VStr "x") VUndefined VUndefined VUndefined VUndefined
            (fresh second_high)) =
    [packet "app.x.prod:-1|c" (Direct VUndefined)].
Proof. reflexivity. Qed.

Example decrement_zero :
  socket (decrement udp (VStr "x") (VNum 0) VUndefined VUndefined VUndefined
            (fresh second_high)) =
    [packet "app.x.prod:-1|c" (Direct VUndefined)].
Proof. reflexivity. Qed.

(** A sample rate of 0 does not pass the test [sampleRate && ...]: the stat is
    sent, without ["|@"]. *)
Example rate_zero_not_sampled :
  socket (send udp (VStr "x") (VNum 1) (VStr "c") (VNum 0) VUndefined
            (Direct VUndefined) (fresh second_high)) =
    [packet "app.x.prod:1|c" (Direct VUndefined)].
Proof. reflexivity. Qed.

(** *** The fan-out over ["a", "b", "c"] *)

Lemma sendAll_all_sent_witness :
  (* the completions arrive in the order c, a, b, with 7, 5 and 6 bytes *)
  trace (deliver [(packet_c, Sent 7); (packet_a, Sent 5); (packet_b, Sent 6)]
           (sendAll udp (VArr abc) (VNum 1) (VStr "c") (VFun 7) VUndefined
              VUndefined (fresh second_high))) =
    [success_call 7 18].
Proof.
  apply (sendAll_all_sent udp abc (VNum 1) (VStr "c") (VFun 7) VUndefined
           VUndefined 7 (fresh second_high) [packet_a; packet_b; packet_c]
           [5; 6; 7]%Z
           [(packet_c, Sent 7); (packet_a, Sent 5); (packet_b, Sent 6)]).
  - discriminate.
  - reflexivity.
  - reflexivity.
  - reflexivity.
  - reflexivity.
  - simpl. eapply perm_trans; [apply perm_swap|]. apply perm_skip, perm_swap.
Defined.

Lemma sendAll_calls_back_at_most_once_witness :
  (* the second completion carries an error, the third is a success *)
  trace (deliver [(packet_a, Sent 5); (packet_b, Failed (Error "EPERM"));
                  (packet_c, Sent 7)]
           (sendAll udp (VArr abc) (VNum 1) (VStr "c") VUndefined VUndefined
              (VFun 7) (fresh second_high))) =
    [failure_call 7 (Error "EPERM")].
Proof.
  destruct (sendAll_calls_back_at_most_once udp abc (VNum 1) (VStr "c")
              VUndefined VUndefined (VFun 7) 7 (fresh second_high)
              [packet_a; packet_b; packet_c] []
              [(packet_a, Sent 5); (packet_b, Failed (Error "EPERM"));
               (packet_c, Sent 7)]
              ltac:(reflexivity) ltac:(reflexivity) (Permutation_refl _))
    as [_ Hfirst].
  apply (Hfirst [(packet_a, Sent 5)] packet_b (Error "EPERM") [(packet_c, Sent 7)]
           eq_refl).
  constructor; [exists 5%Z; reflexivity | constructor].
Defined.

Lemma sendAll_sampled_out_never_calls_back_witness :
  trace (deliver [(sampled_c, Sent 7); (sampled_a, Sent 5)]
           (sendAll udp (VArr abc) (VNum 1) (VStr "c") (VNum 0.5) VUndefined
              (VFun 7) (fresh second_high))) = [].
Proof.
  destruct (sendAll_sampled_out_never_calls_back udp abc (VNum 1) (VStr "c") 0.5
              VUndefined (VFun 7) (fresh second_high) 1
              [sampled_a; sampled_c] []
              [(sampled_c, Sent 7); (sampled_a, Sent 5)]
              ltac:(reflexivity) ltac:(reflexivity) ltac:(simpl; lia)
              ltac:(reflexivity) ltac:(reflexivity) (perm_swap _ _ _))
    as (_ & _ & Hquiet).
  apply Hquiet.
  repeat constructor; [exists 7%Z | exists 5%Z]; reflexivity.
Defined.

(** C10 as stated fails when a send that was not dropped fails: with the
    same rate and draws, ["b"] is dropped and the datagram of ["a"] completes
    with an error; the callback is called, with that error. *)
Lemma sampled_out_error_still_calls_back :
  PrimFloat.ltb 0.5 1 = true
  /\ PrimFloat.leb 0.5 (second_high 1) = true
  /\ socket (sendAll udp (VArr abc) (VNum 1) (VStr "c") (VNum 0.5) VUndefined
               (VFun 7) (fresh second_high)) = [sampled_a; sampled_c]
  /\ trace (deliver [(sampled_a, Failed (Error "EPERM"))]
              (sendAll udp (VArr abc) (VNum 1) (VStr "c") (VNum 0.5) VUndefined
                 (VFun 7) (fresh second_high))) =
     [failure_call 7 (Error "EPERM")].
Proof. repeat split. Qed.

(** *** The mock client *)

Lemma mock_never_transmits_witness :
  socket (increment quiet (VStr "x") VUndefined (VFun 7) VUndefined VUndefined
            (fresh second_high)) = []
  /\ exists calls,
       trace (increment quiet (VStr "x") VUndefined (VFun 7) VUndefined VUndefined
                (fresh second_high)) = calls
       /\ calls = [success_call 7 0].
Proof.
  destruct (mock_never_transmits quiet (VStr "x") (VNum 1) (VStr "c") (VFun 7)
              VUndefined VUndefined (fresh second_high) eq_refl)
    as (Hsocket & _ & _ & calls & Htrace & _ & Hcalls).
  split; [exact Hsocket|].
  exists calls. split; [exact Htrace|].
  apply (Hcalls 7); [reflexivity | discriminate | reflexivity].
Defined.

(** C6 as stated fails on a sampled call: on the mock client, with a rate of
    0.5 and a draw of 0.75, [increment("x", 1, 0.5, f)] returns before the mock
    branch of [send]; [f] is supplied and is not called. *)
Lemma mock_sampled_out_not_called :
  mock quiet = true
  /\ trace (increment quiet (VStr "x") (VNum 1) (VNum 0.5) (VFun 7) VUndefined
              (skip_draws 1 (fresh second_high))) = []
  /\ ~ In (success_call 7 0)
         (trace (increment quiet (VStr "x") (VNum 1) (VNum 0.5) (VFun 7) VUndefined
                   (skip_draws 1 (fresh second_high)))).
Proof.
  split; [reflexivity|]. split; [reflexivity|].
  intros H. exact H.
Qed.

(** The fan-out of the mock client completes on the spot. *)
Example mock_fanout :
  trace (increment quiet (VArr abc) VUndefined (VFun 7) VUndefined VUndefined
           (fresh second_high)) = [success_call 7 0]
  /\ socket (increment quiet (VArr abc) VUndefined (VFun 7) VUndefined VUndefined
               (fresh second_high)) = [].
Proof. split; reflexivity. Qed.


(** *** More of [send] and [sendAll] *)

#[local] Existing Instance ExampleTiming.timing.

Lemma sendAll_fanout_in_order_witness :
  socket (gauge udp (VArr abc) (VNum 3) (VArr [VStr "k:v"]) (VFun 7) VUndefined
            (fresh second_high)) =
    [packet "app.a.prod:3|g|#k:v" (OnSend 0);
     packet "app.b.prod:3|g|#k:v" (OnSend 0);
     packet "app.c.prod:3|g|#k:v" (OnSend 0)].
Proof.
  exact (proj1 (sendAll_fanout_in_order udp abc (VNum 3) (VStr "g")
                  (VArr [VStr "k:v"]) (VFun 7) VUndefined (fresh second_high)
                  eq_refl eq_refl)).
Defined.

Lemma typed_operations_lines_witness :
  socket (timing udp (VStr "x") (VNum 12) VUndefined VUndefined VUndefined
            (fresh second_high)) =
    [packet "app.x.prod:12|ms" (Direct VUndefined)]
  /\ socket (increment udp (VStr "x") (VNum 0) VUndefined VUndefined VUndefined
               (fresh second_high)) =
     [packet "app.x.prod:1|c" (Direct VUndefined)].
Proof.
  destruct (typed_operations_lines udp "x" (VNum 12) (fresh second_high) eq_refl)
    as (Htiming & _).
  destruct (typed_operations_lines udp "x" (VNum 0) (fresh second_high) eq_refl)
    as (_ & Hincrement & _).
  split; [exact Htiming | exact Hincrement].
Defined.

Lemma sendAll_single_name_witness :
  trace (complete (packet "app.x.prod:12|ms" (Direct (VFun 7))) (Sent 16)
           (timing udp (VStr "x") (VNum 12) (VFun 7) VUndefined VUndefined
              (fresh second_high))) = [success_call 7 16]
  /\ trace (complete (packet "app.x.prod:12|ms" (Direct (VFun 7)))
              (Failed (Error "EPERM"))
              (timing udp (VStr "x") (VNum 12) (VFun 7) VUndefined VUndefined
                 (fresh second_high))) = [failure_call 7 (Error "EPERM")].
Proof.
  destruct (sendAll_single_name udp (VStr "x") (VNum 12) (VStr "ms") (VFun 7)
              VUndefined VUndefined (fresh second_high) eq_refl eq_refl eq_refl)
    as (_ & Hcalls & _).
  exact (Hcalls 7 16%Z (Error "EPERM") eq_refl).
Defined.

Lemma sendAll_without_callback_is_silent_witness :
  trace (deliver [(packet_b, Failed (Error "EPERM")); (packet_a, Sent 5)]
           (increment udp (VArr abc) VUndefined VUndefined VUndefined VUndefined
              (fresh second_high))) = [].
Proof.
  apply (sendAll_without_callback_is_silent udp abc (VNum 1) (VStr "c")
           VUndefined VUndefined VUndefined (fresh second_high)
           [packet_a; packet_b; packet_c] [packet_c]
           [(packet_b, Failed (Error "EPERM")); (packet_a, Sent 5)]).
  - reflexivity.
  - reflexivity.
  - simpl. apply perm_swap.
Defined.

(** The datagrams of a second fan-out, made in the world [busy]. *)
Definition second_a : datagram := packet "app.a.prod:2|g" (OnSend 1).
Definition second_b : datagram := packet "app.b.prod:2|g" (OnSend 1).
Definition second_c : datagram := packet "app.c.prod:2|g" (OnSend 1).

Lemma sendAll_calls_are_isolated_witness :
  batches (deliver [(second_a, Sent 5); (second_b, Failed (Error "EPERM"))]
             (gauge udp (VArr abc) (VNum 2) VUndefined VUndefined (VFun 8) busy))
    !! 0 = Some (waiting (VFun 7) abc 0 0).
Proof.
  apply (sendAll_calls_are_isolated udp abc (VNum 2) (VStr "g") VUndefined
           VUndefined (VFun 8) busy [second_a; second_b; second_c] [second_c]
           [(second_a, Sent 5); (second_b, Failed (Error "EPERM"))] 0).
  - simpl. lia.
  - reflexivity.
  - reflexivity.
Defined.

Lemma sendAll_shifts_twice_witness :
  shift_arguments (VStr "0.5") (VArr [VStr "k:v"]) (VFun 7) =
    (VUndefined, VUndefined, VStr "0.5").
Proof.
  exact (proj1 (sendAll_shifts_twice udp (VStr "x") (VNum 1) (VStr "c")
                  (VStr "0.5") (VArr [VStr "k:v"]) (VFun 7) (fresh second_high)
                  eq_refl eq_refl eq_refl)).
Defined.

(** *** The constructor *)

Lemma constructor_forms_agree_witness :
  let positional := construct (Args (Val (VStr "host")) [VNum 1234]) in
  let record :=
    construct
      (Args (Opts {| opt_host := VStr "host"; opt_port := VNum 1234;
                     opt_prefix := VUndefined; opt_suffix := VUndefined;
                     opt_globalize := VUndefined; opt_cacheDns := VUndefined;
                     opt_mock := VUndefined |}) []) in
  this_host (this positional) = this_host (this record)
  /\ this_port (this positional) = this_port (this record)
  /\ truthy (this_mock (this positional)) = truthy (this_mock (this record)).
Proof.
  destruct (constructor_forms_agree (VStr "host") [VNum 1234]
              (or_intror eq_refl))
    as (Hh & Hp & _ & _ & _ & _ & _ & _ & Hm).
  split; [exact Hh|]. split; [exact Hp|].
  apply Hm. intros H. discriminate H.
Defined.

Lemma constructor_ignores_lone_value_witness :
  this (construct (Args (Val (VNum 9125)) [])) =
    {| this_host := Val (VStr "localhost"); this_port := VNum 8125;
       this_prefix := VStr ""; this_suffix := VStr ""; this_mock := VUndefined |}.
Proof.
  destruct (constructor_ignores_lone_value (VNum 9125) eq_refl) as [H1 H2].
  rewrite H1, H2. reflexivity.
Defined.

Lemma constructor_looks_up_given_host_witness :
  lookup (construct
            (Args (Opts {| opt_host := VUndefined; opt_port := VUndefined;
                           opt_prefix := VUndefined; opt_suffix := VUndefined;
                           opt_globalize := VUndefined; opt_cacheDns := VBool true;
                           opt_mock := VUndefined |}) [])) =
    Some (Val VUndefined).
Proof.
  apply (constructor_looks_up_given_host
           {| opt_host := VUndefined; opt_port := VUndefined;
              opt_prefix := VUndefined; opt_suffix := VUndefined;
              opt_globalize := VUndefined; opt_cacheDns := VBool true;
              opt_mock := VUndefined |}).
  reflexivity.
Defined.

Lemma resolution_redirects_witness :
  client_of (resolved (this (construct (Args (Val (VStr "stats.local")) [])))
               None "10.0.0.7") =
    Some {| host := "10.0.0.7"; port := VNum 8125; prefix := ""; suffix := "";
            mock := false |}.
Proof.
  exact (proj1 (resolution_redirects
                  (this (construct (Args (Val (VStr "stats.local")) [])))
                  {| host := "stats.local"; port := VNum 8125; prefix := "";
                     suffix := ""; mock := false |}
                  (Error "ENOTFOUND") "10.0.0.7" (VStr "x") (VNum 1) (VStr "c")
                  VUndefined VUndefined VUndefined (fresh second_high) eq_refl)).
Defined.

(** *** The route middleware *)

Lemma route_has_no_colon_witness : replace_colons "/user/list" = "/user/list".
Proof.
  apply (route_has_no_colon "/user/list"). reflexivity.
Defined.

(** The request of the examples: the route [/user/:id], timed under "db" and
    "render". *)
Definition visit : option (tracked * process) :=
  times [VStr "db"; VStr "render"] (fst (measure "/user/:id" ticking))
    (snd (measure "/user/:id" ticking)).

Example middleware_lines :
  match visit with
  | Some (r, p) =>
      option_map (fun p' => map buf (socket (io p')))
        (on_headers udp (VStr "http") r p)
  | None => None
  end =
  Some ["app.http.prod:1500|h|#route:/user/*id,part:db";
        "app.http.prod:1500|h|#route:/user/*id,part:render";
        "app.http.total.prod:7500|h|#route:/user/*id"].
Proof. reflexivity. Qed.

Lemma headers_report_parts_then_total_witness :
  exists p',
    on_headers udp (VStr "http")
      {| route := "/x";
         measurements :=
           [{| key := VStr "initial"; time := (0%float, 0%float); diff := VNum 0 |};
            {| key := VStr "db"; time := (3%float, 0%float); diff := VStr "1500" |}] |}
      ticking = Some p'
    /\ map buf (socket (io p')) =
         ["app.http.prod:1500|h|#route:/x,part:db";
          "app.http.total.prod:0|h|#route:/x"].
Proof.
  destruct (headers_report_parts_then_total udp "http"
              {| route := "/x";
                 measurements :=
                   [{| key := VStr "initial"; time := (0%float, 0%float);
                       diff := VNum 0 |};
                    {| key := VStr "db"; time := (3%float, 0%float);
                       diff := VStr "1500" |}] |}
              _ _ ticking eq_refl eq_refl) as (p' & H & S & _).
  exists p'. split; [exact H|]. rewrite S. reflexivity.
Defined.

Lemma middleware_reports_every_part_witness :
  exists r p1 p2 parts total,
    times [VStr "db"; VStr "render"] (fst (measure "/user/:id" ticking))
      (snd (measure "/user/:id" ticking)) = Some (r, p1)
    /\ on_headers udp (VStr "http") r p1 = Some p2
    /\ map key parts = [VStr "db"; VStr "render"]
    /\ socket (io p2) =
         socket (io ticking) ++ map (part_packet udp "http" r) parts
           ++ [total_packet udp "http" r total]
    /\ trace (io p2) = trace (io ticking).
Proof.
  exact (middleware_reports_every_part udp "http" "/user/:id"
           [VStr "db"; VStr "render"] ticking eq_refl).
Defined.
